(** * A shallow embedding of the phone book program (main.py)

    The program keeps a list of contacts (Python dicts) in memory, stores it
    as a CSV file through the [csv] module, and offers paging, adding,
    editing and searching from a console menu.

    Modelling choices, in the order of the file:
    - a Python [str] is a list of Unicode code points ([N]);
    - a dict is an insertion-ordered association list;
    - the [csv] writer and reader follow CPython's [_csv] module (3.11 and
      later) for the default dialect, character by character: minimal
      quoting on output, the reader's state machine fed line by line on
      input.  Two limits of the run-time system are outside the model: the
      UTF-8 layer of [open] is taken to be lossless (a string with a lone
      surrogate cannot be encoded), and the reader's field size limit
      (131072 characters) is not enforced;
    - console and file effects are threaded through a small state and
      exception monad over a [world] (standard input, printed lines, the one
      file on disk, the phone book list that [main] owns);
    - [int] and the Unicode tables of [str.lower] and of the pattern's
      digit class belong to the interpreter and are parameters;
    - the menu loop of [main] runs for a bounded number of turns; since
      every turn reads a line, one turn more than there are pending lines
      is shown to be enough. *)

From Stdlib Require Import ZArith NArith List String Ascii Bool Lia DecimalString.
From stdpp Require Import base list numbers.
Import ListNotations.

Local Open Scope N_scope.
Local Open Scope list_scope.

(** ** 1. Strings *)

Definition char := N.
Definition pystr := list char.

(** String literals of the source are written as Rocq strings (UTF-8 bytes)
    and decoded to code points once, at definition time. *)
Fixpoint utf8_decode (bs : list N) : pystr :=
  match bs with
  | [] => []
  | b :: r =>
      if b <? 128 then b :: utf8_decode r
      else if b <? 224 then
        match r with
        | b1 :: r1 => ((b - 192) * 64 + (b1 - 128)) :: utf8_decode r1
        | _ => []
        end
      else if b <? 240 then
        match r with
        | b1 :: b2 :: r2 =>
            ((b - 224) * 4096 + (b1 - 128) * 64 + (b2 - 128)) :: utf8_decode r2
        | _ => []
        end
      else
        match r with
        | b1 :: b2 :: b3 :: r3 =>
            ((b - 240) * 262144 + (b1 - 128) * 4096 + (b2 - 128) * 64 + (b3 - 128))
              :: utf8_decode r3
        | _ => []
        end
  end.

Definition u (s : string) : pystr :=
  utf8_decode (map N_of_ascii (list_ascii_of_string s)).

Definition LF : char := 10.
Definition CR : char := 13.
Definition DQUOTE : char := 34.
Definition COMMA : char := 44.

Definition str_eqb (a b : pystr) : bool := bool_decide (a = b).

(** [Py_UNICODE_ISSPACE]: the characters that [str.strip()] removes. *)
Definition isspace (c : char) : bool :=
  ((9 <=? c) && (c <=? 13)) || ((28 <=? c) && (c <=? 32))
  || (c =? 133) || (c =? 160) || (c =? 5760)
  || ((8192 <=? c) && (c <=? 8202))
  || (c =? 8232) || (c =? 8233) || (c =? 8239) || (c =? 8287) || (c =? 12288).

Fixpoint lstrip (s : pystr) : pystr :=
  match s with
  | [] => []
  | c :: s' => if isspace c then lstrip s' else s
  end.

Definition rstrip (s : pystr) : pystr := rev (lstrip (rev s)).

(** [str.strip()]: drop the leading, then the trailing whitespace. *)
Definition strip (s : pystr) : pystr := rstrip (lstrip s).

(** [str.lower()].  CPython lowers a pure-ASCII string byte by byte and
    sends any other string through the Unicode case tables; those tables
    are the interpreter's and enter as [unicode_lower] below. *)
Definition is_ascii (s : pystr) : bool := forallb (fun c => c <? 128) s.

Definition ascii_lower (c : char) : char :=
  if (65 <=? c) && (c <=? 90) then c + 32 else c.

(** [needle in hay] on strings. *)
Fixpoint startswith (hay needle : pystr) : bool :=
  match needle, hay with
  | [], _ => true
  | _ :: _, [] => false
  | n :: needle', h :: hay' => (n =? h) && startswith hay' needle'
  end.

Fixpoint contains (hay needle : pystr) : bool :=
  startswith hay needle
  || match hay with
     | [] => false
     | _ :: hay' => contains hay' needle
     end.

(** [str(n)] for an [int]. *)
Definition str_of_int (z : Z) : pystr :=
  map N_of_ascii (list_ascii_of_string (NilZero.string_of_int (Z.to_int z))).

(** ** 2. Values, dicts, exceptions *)

(** What a dict of this program can hold: the [int] that [save_phonebook]
    stores under ['ID'], the strings typed in or read from the file, and the
    [None] that [csv.DictReader] fills short rows with. *)
Inductive value :=
| VInt (n : Z)
| VStr (s : pystr)
| VNone.

(** An entry of a dict.  [csv.DictReader] stores the surplus cells of a long
    row as a list under the key [None]; no other key is [None] and no other
    value is a list, so that entry has a constructor of its own. *)
Inductive item :=
| Item (k : pystr) (v : value)
| Surplus (cells : list pystr).

Definition dict := list item.

Definition same_key (a b : item) : bool :=
  match a, b with
  | Item k _, Item k' _ => str_eqb k k'
  | Surplus _, Surplus _ => true
  | _, _ => false
  end.

(** [d[k] = v]: an existing key keeps its place, a new one goes last. *)
Fixpoint setitem (d : dict) (it : item) : dict :=
  match d with
  | [] => [it]
  | x :: d' => if same_key x it then it :: d' else x :: setitem d' it
  end.

(** [d.get(k)] for a string key. *)
Fixpoint get (d : dict) (k : pystr) : option value :=
  match d with
  | [] => None
  | Item k' v :: d' => if str_eqb k' k then Some v else get d' k
  | Surplus _ :: d' => get d' k
  end.

(** [d.update(other)]. *)
Definition update (d other : dict) : dict := fold_left setitem other d.

Inductive exn :=
| ValueError (msg : pystr)
| ExtraFieldsError      (* the ValueError of csv.DictWriter; its text lists the keys *)
| AttributeError
| EOFError
| CsvError
| IndexError.

Definition is_ValueError (e : exn) : bool :=
  match e with
  | ValueError _ | ExtraFieldsError => true
  | _ => false
  end.

Inductive result (A : Type) :=
| Ok (a : A)
| Raise (e : exn).
Arguments Ok {A} a.
Arguments Raise {A} e.

Global Instance result_ret : MRet result := fun _ a => Ok a.
Global Instance result_bind : MBind result := fun _ _ k r =>
  match r with
  | Ok a => k a
  | Raise e => Raise e
  end.

(** ** 3. The csv module, default dialect

    Comma as delimiter, the double quote as quotechar, doublequote,
    lineterminator CR LF, QUOTE_MINIMAL, no escapechar, not strict.  The
    states of the reader that follow an escape character cannot be reached
    in this dialect and are left out. *)

Definition is_newline (c : char) : bool := (c =? LF) || (c =? CR).

(** *** Writer *)

(** A character that makes [join_append_data] quote the field. *)
Definition csv_special (c : char) : bool :=
  (c =? COMMA) || (c =? DQUOTE) || is_newline c.

Definition csv_double (c : char) : pystr :=
  if c =? DQUOTE then [DQUOTE; DQUOTE] else [c].

Definition csv_field (s : pystr) : pystr :=
  if existsb csv_special s
  then DQUOTE :: flat_map csv_double s ++ [DQUOTE]
  else s.

Fixpoint csv_join (cells : list pystr) : pystr :=
  match cells with
  | [] => []
  | [s] => csv_field s
  | s :: rest => csv_field s ++ COMMA :: csv_join rest
  end.

(** [writer.writerow]: a record made of one empty field is written as a
    pair of quotes. *)
Definition writer_writerow (cells : list pystr) : pystr :=
  match cells with
  | [ [] ] => [DQUOTE; DQUOTE; CR; LF]
  | _ => csv_join cells ++ [CR; LF]
  end.

(** The text a cell value is written as: strings as they are, [None] as the
    empty string, anything else through [str()]. *)
Definition cell_text (v : value) : pystr :=
  match v with
  | VStr s => s
  | VNone => []
  | VInt n => str_of_int n
  end.

(** *** Reader *)

Inductive pstate :=
| START_RECORD
| START_FIELD
| IN_FIELD
| IN_QUOTED_FIELD
| QUOTE_IN_QUOTED_FIELD
| EAT_CRNL.

Record parser := mkParser {
  state : pstate;
  field : pystr;            (* the characters of the field being read *)
  fields : list pystr       (* the fields of the record read so far *)
}.

Definition parse_reset : parser := mkParser START_RECORD [] [].

Definition set_state (p : parser) (s : pstate) : parser :=
  mkParser s (field p) (fields p).

Definition parse_add_char (p : parser) (c : char) : parser :=
  mkParser (state p) (field p ++ [c]) (fields p).

Definition parse_save_field (p : parser) : parser :=
  mkParser (state p) [] (fields p ++ [field p]).

(** The reader is fed the characters of a line and then an end-of-line mark. *)
Inductive symbol :=
| Ch (c : char)
| EOL.

Definition start_field (p : parser) (x : symbol) : parser :=
  match x with
  | EOL => set_state (parse_save_field p) START_RECORD
  | Ch c =>
      if is_newline c then set_state (parse_save_field p) EAT_CRNL
      else if c =? DQUOTE then set_state p IN_QUOTED_FIELD
      else if c =? COMMA then set_state (parse_save_field p) START_FIELD
      else set_state (parse_add_char p c) IN_FIELD
  end.

Definition parse_process_char (p : parser) (x : symbol) : result parser :=
  match state p with
  | START_RECORD =>
      match x with
      | EOL => Ok p
      | Ch c => if is_newline c then Ok (set_state p EAT_CRNL) else Ok (start_field p x)
      end
  | START_FIELD => Ok (start_field p x)
  | IN_FIELD =>
      match x with
      | EOL => Ok (set_state (parse_save_field p) START_RECORD)
      | Ch c =>
          if is_newline c then Ok (set_state (parse_save_field p) EAT_CRNL)
          else if c =? COMMA then Ok (set_state (parse_save_field p) START_FIELD)
          else Ok (parse_add_char p c)
      end
  | IN_QUOTED_FIELD =>
      match x with
      | EOL => Ok p
      | Ch c =>
          if c =? DQUOTE then Ok (set_state p QUOTE_IN_QUOTED_FIELD)
          else Ok (parse_add_char p c)
      end
  | QUOTE_IN_QUOTED_FIELD =>
      match x with
      | EOL => Ok (set_state (parse_save_field p) START_RECORD)
      | Ch c =>
          if c =? DQUOTE then Ok (set_state (parse_add_char p c) IN_QUOTED_FIELD)
          else if c =? COMMA then Ok (set_state (parse_save_field p) START_FIELD)
          else if is_newline c then Ok (set_state (parse_save_field p) EAT_CRNL)
          else Ok (set_state (parse_add_char p c) IN_FIELD)
      end
  | EAT_CRNL =>
      match x with
      | EOL => Ok (set_state p START_RECORD)
      | Ch c => if is_newline c then Ok p else Raise CsvError
      end
  end.

Fixpoint feed (p : parser) (s : pystr) : result parser :=
  match s with
  | [] => Ok p
  | c :: s' => p' ← parse_process_char p (Ch c); feed p' s'
  end.

Definition process_line (p : parser) (line : pystr) : result parser :=
  p' ← feed p line; parse_process_char p' EOL.

Definition is_start_record (p : parser) : bool :=
  match state p with START_RECORD => true | _ => false end.

Definition is_in_quoted (p : parser) : bool :=
  match state p with IN_QUOTED_FIELD => true | _ => false end.

(** All the rows [csv.reader] yields for the lines of a file
    ([Reader_iternext], called until the input is exhausted). *)
Fixpoint reader_rows (p : parser) (lines : list pystr) : result (list (list pystr)) :=
  match lines with
  | [] =>
      if negb (length (field p) =? 0)%nat || is_in_quoted p
      then Ok [fields (parse_save_field p)]
      else Ok []
  | line :: rest =>
      p' ← process_line p line;
      if is_start_record p'
      then rows ← reader_rows parse_reset rest; Ok (fields p' :: rows)
      else reader_rows p' rest
  end.

(** Iterating a text file opened with [newline='']: a line ends after
    [\n], [\r\n] or a lone [\r], and keeps its ending. *)
Fixpoint readlines_from (cur : pystr) (t : pystr) : list pystr :=
  match t with
  | [] => match cur with [] => [] | _ => [cur] end
  | c :: t' =>
      if c =? LF then (cur ++ [c]) :: readlines_from [] t'
      else if c =? CR then
        match t' with
        | c' :: t'' =>
            if c' =? LF then (cur ++ [c; c']) :: readlines_from [] t''
            else (cur ++ [c]) :: readlines_from [] t'
        | [] => [cur ++ [c]]
        end
      else readlines_from (cur ++ [c]) t'
  end.

Definition readlines (t : pystr) : list pystr := readlines_from [] t.

Definition csv_reader (t : pystr) : result (list (list pystr)) :=
  reader_rows parse_reset (readlines t).

(** The same reader as a single pass over the characters of the file, with
    the line ends found on the way.  It is the form the proofs work on;
    [csv_reader_scan] below shows that it computes [csv_reader]. *)
Definition after_line (p : parser) (k : parser -> result (list (list pystr)))
  : result (list (list pystr)) :=
  p' ← parse_process_char p EOL;
  if is_start_record p'
  then rows ← k parse_reset; Ok (fields p' :: rows)
  else k p'.

Fixpoint scan (p : parser) (partial : bool) (t : pystr) : result (list (list pystr)) :=
  match t with
  | [] => if partial then after_line p (fun q => reader_rows q []) else reader_rows p []
  | c :: t' =>
      p1 ← parse_process_char p (Ch c);
      if c =? LF then after_line p1 (fun q => scan q false t')
      else if c =? CR then
        match t' with
        | c' :: t'' =>
            if c' =? LF
            then p2 ← parse_process_char p1 (Ch c'); after_line p2 (fun q => scan q false t'')
            else after_line p1 (fun q => scan q false t')
        | [] => after_line p1 (fun q => reader_rows q [])
        end
      else scan p1 true t'
  end.

(** *** DictWriter and DictReader *)

Definition K_ID : pystr := Eval vm_compute in u "ID".
Definition K_LAST : pystr := Eval vm_compute in u "Фамилия".
Definition K_FIRST : pystr := Eval vm_compute in u "Имя".
Definition K_PATRONYMIC : pystr := Eval vm_compute in u "Отчество".
Definition K_ORG : pystr := Eval vm_compute in u "Организация".
Definition K_WORK : pystr := Eval vm_compute in u "Телефон рабочий".
Definition K_PERSONAL : pystr := Eval vm_compute in u "Телефон личный".

Definition fieldnames : list pystr :=
  [K_ID; K_LAST; K_FIRST; K_PATRONYMIC; K_ORG; K_WORK; K_PERSONAL].

Definition known_key (names : list pystr) (it : item) : bool :=
  match it with
  | Item k _ => existsb (str_eqb k) names
  | Surplus _ => false
  end.

(** [DictWriter._dict_to_list] with [extrasaction='raise'], [restval='']. *)
Definition row_cells (names : list pystr) (rowdict : dict) : list pystr :=
  map (fun k => cell_text (default (VStr []) (get rowdict k))) names.

Definition dict_to_list (names : list pystr) (rowdict : dict) : result (list pystr) :=
  if forallb (known_key names) rowdict
  then Ok (row_cells names rowdict)
  else Raise ExtraFieldsError.

Definition DictWriter_writerow (names : list pystr) (rowdict : dict) : result pystr :=
  cells ← dict_to_list names rowdict; Ok (writer_writerow cells).

Definition DictWriter_writeheader (names : list pystr) : pystr :=
  writer_writerow names.

(** One row of [csv.DictReader]: [dict(zip(fieldnames, row))], then the
    surplus cells under [None] or [None] for the missing cells. *)
Definition DictReader_row (names : list pystr) (row : list pystr) : dict :=
  let d := fold_left (fun d kv => setitem d (Item kv.1 (VStr kv.2))) (zip names row) [] in
  if (length names <? length row)%nat
  then setitem d (Surplus (drop (length names) row))
  else fold_left (fun d k => setitem d (Item k VNone)) (drop (length row) names) d.

Definition is_blank_row (row : list pystr) : bool :=
  match row with [] => true | _ => false end.

(** The first row is the header, blank rows after it are skipped. *)
Definition DictReader (rows : list (list pystr)) : list dict :=
  match rows with
  | [] => []
  | names :: rest => map (DictReader_row names) (filter (fun r => negb (is_blank_row r)) rest)
  end.

(** ** 4. The world and the effect monad *)

(** What the program prints: [print(text)], [print(entry)], the prompt of
    [input], and the line [print(f"Ошибка: {e}")] of the handlers. *)
Inductive printed :=
| Text (s : pystr)
| Repr (entry : dict)
| Prompt (s : pystr)
| Report (e : exn).

Record world := mkWorld {
  stdin : list pystr;         (* the lines still to be typed *)
  stdout : list printed;
  disk : option pystr;        (* phonebook.csv: absent, or its text *)
  phonebook : list dict       (* the list that main passes to every function *)
}.

Definition M (A : Type) : Type := world -> result A * world.

Global Instance M_ret : MRet M := fun _ a w => (Ok a, w).
Global Instance M_bind : MBind M := fun _ _ k m w =>
  match m w with
  | (Ok a, w') => k a w'
  | (Raise e, w') => (Raise e, w')
  end.

Definition raise {A} (e : exn) : M A := fun w => (Raise e, w).

Definition lift {A} (r : result A) : M A := fun w => (r, w).

(** [try: body except ValueError as e: handler e]. *)
Definition try_except_ValueError {A} (body : M A) (handler : exn -> M A) : M A :=
  fun w =>
    match body w with
    | (Raise e, w') => if is_ValueError e then handler e w' else (Raise e, w')
    | ok => ok
    end.

Definition set_stdin (w : world) (l : list pystr) : world :=
  mkWorld l (stdout w) (disk w) (phonebook w).
Definition set_stdout (w : world) (o : list printed) : world :=
  mkWorld (stdin w) o (disk w) (phonebook w).
Definition set_disk (w : world) (d : option pystr) : world :=
  mkWorld (stdin w) (stdout w) d (phonebook w).
Definition set_phonebook (w : world) (pb : list dict) : world :=
  mkWorld (stdin w) (stdout w) (disk w) pb.

Definition print (x : printed) : M unit :=
  fun w => (Ok tt, set_stdout w (stdout w ++ [x])).

Definition print_all (xs : list printed) : M unit :=
  fun w => (Ok tt, set_stdout w (stdout w ++ xs)).

Definition input (prompt : pystr) : M pystr :=
  fun w =>
    match stdin w with
    | [] => (Raise EOFError, set_stdout w (stdout w ++ [Prompt prompt]))
    | line :: rest => (Ok line, set_stdin (set_stdout w (stdout w ++ [Prompt prompt])) rest)
    end.

Definition get_phonebook : M (list dict) := fun w => (Ok (phonebook w), w).

Definition modify_phonebook (f : list dict -> list dict) : M unit :=
  fun w => (Ok tt, set_phonebook w (f (phonebook w))).

(** Truth value of a string, list or dict: non-empty. *)
Definition truthy {A} (l : list A) : bool :=
  match l with [] => false | _ => true end.

(** ** 5. The program *)

(** *** load_phonebook, save_phonebook *)

Definition load_phonebook : M (list dict) :=
  fun w =>
    match disk w with
    | None => (Ok [], w)
    | Some text => (rows ← csv_reader text; Ok (DictReader rows), w)
    end.

(** The loop of [save_phonebook] from position [idx] on: the entries with
    their new ids, the text written, and the exception that stopped it. *)
Fixpoint save_entries (idx : Z) (pb : list dict) : list dict * pystr * option exn :=
  match pb with
  | [] => ([], [], None)
  | entry :: rest =>
      let entry' := setitem entry (Item K_ID (VInt idx)) in
      match DictWriter_writerow fieldnames entry' with
      | Raise e => (entry' :: rest, [], Some e)
      | Ok line =>
          let '(rest', text, r) := save_entries (idx + 1) rest in
          (entry' :: rest', line ++ text, r)
      end
  end.

Definition save_phonebook : M unit :=
  fun w =>
    let '(pb, text, r) := save_entries 1 (phonebook w) in
    (match r with None => Ok tt | Some e => Raise e end,
     set_phonebook (set_disk w (Some (DictWriter_writeheader fieldnames ++ text))) pb).

(** *** display_page *)

(** [PySlice_AdjustIndices] for step 1. *)
Definition slice_index (len i : Z) : Z :=
  if (i <? 0)%Z then Z.max 0 (i + len) else Z.min i len.

(** [l[start:stop]]. *)
Definition py_slice {A} (l : list A) (start stop : Z) : list A :=
  let len := Z.of_nat (length l) in
  let a := slice_index len start in
  let b := slice_index len stop in
  take (Z.to_nat (b - a)) (drop (Z.to_nat a) l).

Definition page_entries (page_num entries_per_page : Z) (pb : list dict) : list dict :=
  let start_idx := ((page_num - 1) * entries_per_page)%Z in
  let end_idx := (start_idx + entries_per_page)%Z in
  py_slice pb start_idx end_idx.

Definition display_page (page_num entries_per_page : Z) : M unit :=
  pb ← get_phonebook;
  print_all (map Repr (page_entries page_num entries_per_page pb)).

(** *** validate_string_input *)

Definition MSG_EMPTY : pystr := Eval vm_compute in u " не может быть пустым.".

Definition validate_string_input (input_str field_name : pystr) : result pystr :=
  if truthy (strip input_str)
  then Ok (strip input_str)
  else Raise (ValueError (field_name ++ MSG_EMPTY)).

(** Tables for the worked examples: an interpreter whose Unicode data is
    empty outside ASCII. *)
Definition no_unicode_lower (s : pystr) : pystr := s.
Definition no_unicode_digit (c : char) : bool := false.

(** For the worked examples, [int()] on plain decimal numerals, and its
    message for a text of letters. *)
Definition MSG_INT : pystr := Eval vm_compute in u "invalid literal for int() with base 10: ".

Definition ascii_int (s : pystr) : Z + pystr :=
  if truthy s && forallb (fun c => (48 <=? c) && (c <=? 57)) s
  then inl (fold_left (fun n c => (10 * n + Z.of_N (c - 48))%Z) s 0%Z)
  else inr (MSG_INT ++ [39] ++ s ++ [39]).

Section Phonebook.

(** The interpreter's Unicode tables: [str.lower()] on a string that is not
    pure ASCII, and the decimal digits (category Nd) beyond [0-9]. *)
Variable unicode_lower : pystr -> pystr.
Variable unicode_digit : char -> bool.

Definition lower (s : pystr) : pystr :=
  if is_ascii s then map ascii_lower s else unicode_lower s.

(** *** validate_phone_number *)

(** The compiled pattern [^\+7 \(\d{3}\) \d{3}-\d{2}-\d{2}$]: a sequence of
    literal characters and digit classes, then the end anchor. *)
Inductive atom :=
| Lit (c : char)
| Digit.

(** [\d] in a [str] pattern: any Unicode decimal digit; the table is asked
    about the characters outside ASCII only. *)
Definition is_digit (c : char) : bool :=
  ((48 <=? c) && (c <=? 57)) || ((128 <=? c) && unicode_digit c).

Definition match_atom (a : atom) (c : char) : bool :=
  match a with
  | Lit l => c =? l
  | Digit => is_digit c
  end.

(** Match the atoms at the start of [s]; the rest of [s] on success. *)
Fixpoint match_atoms (p : list atom) (s : pystr) : option pystr :=
  match p, s with
  | [], _ => Some s
  | _ :: _, [] => None
  | a :: p', c :: s' => if match_atom a c then match_atoms p' s' else None
  end.

(** [$] without MULTILINE: at the end of the string, or just before a
    newline that is the last character. *)
Definition at_dollar (rest : pystr) : bool :=
  match rest with
  | [] => true
  | [c] => c =? LF
  | _ => false
  end.

Definition phone_pattern : list atom :=
  [Lit 43; Lit 55; Lit 32; Lit 40] ++ replicate 3 Digit ++ [Lit 41; Lit 32]
  ++ replicate 3 Digit ++ [Lit 45] ++ replicate 2 Digit ++ [Lit 45] ++ replicate 2 Digit.

(** [bool(re.match(pattern, phone_number))]. *)
Definition validate_phone_number (phone_number : pystr) : bool :=
  match match_atoms phone_pattern phone_number with
  | Some rest => at_dollar rest
  | None => false
  end.

(** *** input_contact_data *)

Definition ASK_LAST : pystr := Eval vm_compute in u "Введите фамилию: ".
Definition ASK_FIRST : pystr := Eval vm_compute in u "Введите имя: ".
Definition ASK_PATRONYMIC : pystr := Eval vm_compute in u "Введите отчество: ".
Definition ASK_ORG : pystr := Eval vm_compute in u "Введите название организации: ".
Definition ASK_WORK : pystr :=
  Eval vm_compute in u "Введите рабочий телефон в формате +7 (XXX) XXX-XX-XX: ".
Definition ASK_PERSONAL : pystr :=
  Eval vm_compute in u "Введите личный телефон (мобильный) в формате +7 (XXX) XXX-XX-XX: ".
Definition MSG_BAD_PHONE : pystr :=
  Eval vm_compute in
    u "Некорректный формат телефона. Пожалуйста, введите в формате +7 (XXX) XXX-XX-XX".

(** [while True: phone = input(prompt); if valid: break; else: print(...)],
    run on the lines still to be typed. *)
Fixpoint phone_loop (prompt : pystr) (lines : list pystr) (out : list printed)
  : result pystr * list pystr * list printed :=
  match lines with
  | [] => (Raise EOFError, [], out ++ [Prompt prompt])
  | line :: rest =>
      if validate_phone_number line
      then (Ok line, rest, out ++ [Prompt prompt])
      else phone_loop prompt rest (out ++ [Prompt prompt; Text MSG_BAD_PHONE])
  end.

Definition ask_phone (prompt : pystr) : M pystr :=
  fun w =>
    let '(r, lines, out) := phone_loop prompt (stdin w) (stdout w) in
    (r, set_stdin (set_stdout w out) lines).

Definition ask_string (prompt field_name : pystr) : M pystr :=
  line ← input prompt; lift (validate_string_input line field_name).

Definition input_contact_data : M dict :=
  try_except_ValueError
    (last ← ask_string ASK_LAST K_LAST;
     first ← ask_string ASK_FIRST K_FIRST;
     patronymic ← ask_string ASK_PATRONYMIC K_PATRONYMIC;
     org ← ask_string ASK_ORG K_ORG;
     work_phone ← ask_phone ASK_WORK;
     personal_phone ← ask_phone ASK_PERSONAL;
     mret [Item K_LAST (VStr last); Item K_FIRST (VStr first);
           Item K_PATRONYMIC (VStr patronymic); Item K_ORG (VStr org);
           Item K_WORK (VStr work_phone); Item K_PERSONAL (VStr personal_phone)])
    (fun e => print (Report e);; mret []).

(** *** add_entry *)

Definition MSG_ADDED : pystr := Eval vm_compute in u "Запись добавлена успешно.".

Definition add_entry : M unit :=
  contact_data ← input_contact_data;
  if truthy contact_data
  then modify_phonebook (fun pb => pb ++ [contact_data]);;
       save_phonebook;;
       print (Text MSG_ADDED)
  else mret tt.

(** *** edit_entry *)

Definition MSG_CURRENT : pystr := Eval vm_compute in u "Текущая запись:".
Definition MSG_EDITED : pystr := Eval vm_compute in u "Запись отредактирована успешно.".
Definition MSG_BAD_INDEX : pystr :=
  Eval vm_compute in
    u "Некорректный индекс записи. Пожалуйста, выберите существующий индекс.".

Definition edit_entry (entry_idx : Z) : M unit :=
  try_except_ValueError
    (let entry_idx := (entry_idx - 1)%Z in
     pb ← get_phonebook;
     if (0 <=? entry_idx)%Z && (entry_idx <? Z.of_nat (length pb))%Z
     then
       match pb !! Z.to_nat entry_idx with
       | None => raise IndexError
       | Some entry =>
           print (Text MSG_CURRENT);;
           print (Repr entry);;
           contact_data ← input_contact_data;
           if truthy contact_data
           then modify_phonebook
                  (alter (fun entry => update entry contact_data) (Z.to_nat entry_idx));;
                save_phonebook;;
                print (Text MSG_EDITED)
           else mret tt
       end
     else print (Text MSG_BAD_INDEX))
    (fun e => print (Report e)).

(** *** search_entries *)

Definition ASK_SEARCH : pystr := Eval vm_compute in u "Введите текст для поиска: ".
Definition MSG_BAD_SEARCH : pystr :=
  Eval vm_compute in u "Ошибка: Введите корректный текст для поиска.".
Definition MSG_RESULTS : pystr := Eval vm_compute in u "Результаты поиска:".
Definition MSG_NOTHING : pystr := Eval vm_compute in u "Ничего не найдено.".

(** The prompt loop: the lowered input is kept as soon as it is not blank. *)
Fixpoint search_term_loop (lines : list pystr) (out : list printed)
  : result pystr * list pystr * list printed :=
  match lines with
  | [] => (Raise EOFError, [], out ++ [Prompt ASK_SEARCH])
  | line :: rest =>
      let search_term := lower line in
      if negb (truthy (strip search_term))
      then search_term_loop rest (out ++ [Prompt ASK_SEARCH; Text MSG_BAD_SEARCH])
      else (Ok search_term, rest, out ++ [Prompt ASK_SEARCH])
  end.

Definition ask_search_term : M pystr :=
  fun w =>
    let '(r, lines, out) := search_term_loop (stdin w) (stdout w) in
    (r, set_stdin (set_stdout w out) lines).

(** [value.lower()]: only a string has the method. *)
Definition value_lower (it : item) : result pystr :=
  match it with
  | Item _ (VStr s) => Ok (lower s)
  | _ => Raise AttributeError
  end.

(** [any(search_term in value.lower() for value in entry.values())]:
    left to right, stopping at the first match. *)
Fixpoint any_value_matches (search_term : pystr) (entry : dict) : result bool :=
  match entry with
  | [] => Ok false
  | it :: rest =>
      low ← value_lower it;
      if contains low search_term then Ok true else any_value_matches search_term rest
  end.

Fixpoint search_results (search_term : pystr) (pb : list dict) : result (list dict) :=
  match pb with
  | [] => Ok []
  | entry :: rest =>
      hit ← any_value_matches search_term entry;
      results ← search_results search_term rest;
      Ok (if (hit : bool) then entry :: results else results)
  end.

Definition search_entries : M unit :=
  search_term ← ask_search_term;
  pb ← get_phonebook;
  results ← lift (search_results search_term pb);
  if truthy results
  then print (Text MSG_RESULTS);; print_all (map Repr results)
  else print (Text MSG_NOTHING).

(** *** main *)

(** [int(s)] is the interpreter's: the integer that the text denotes, or
    the text of the ValueError it raises. *)
Variable py_int : pystr -> Z + pystr.

Definition MENU_TITLE : pystr := Eval vm_compute in LF :: u "Меню:".
Definition MENU_1 : pystr :=
  Eval vm_compute in u "1. Вывод постранично записей из справочника".
Definition MENU_2 : pystr :=
  Eval vm_compute in u "2. Добавление новой записи в справочник".
Definition MENU_3 : pystr :=
  Eval vm_compute in u "3. Возможность редактирования записей в справочнике".
Definition MENU_4 : pystr :=
  Eval vm_compute in u "4. Поиск записей по одной или нескольким характеристикам".
Definition MENU_0 : pystr := Eval vm_compute in u "0. Выход".
Definition ASK_CHOICE : pystr := Eval vm_compute in u "Выберите действие: ".
Definition ASK_PAGE : pystr := Eval vm_compute in u "Введите номер страницы: ".
Definition ASK_PAGE_SIZE : pystr :=
  Eval vm_compute in u "Введите количество записей на странице: ".
Definition ASK_INDEX : pystr :=
  Eval vm_compute in u "Введите индекс записи для редактирования: ".
Definition MSG_BAD_CHOICE : pystr :=
  Eval vm_compute in u "Некорректный выбор. Пожалуйста, выберите снова.".
Definition CHOICE_0 : pystr := Eval vm_compute in u "0".
Definition CHOICE_1 : pystr := Eval vm_compute in u "1".
Definition CHOICE_2 : pystr := Eval vm_compute in u "2".
Definition CHOICE_3 : pystr := Eval vm_compute in u "3".
Definition CHOICE_4 : pystr := Eval vm_compute in u "4".

(** [int(input(prompt))]. *)
Definition input_int (prompt : pystr) : M Z :=
  line ← input prompt;
  match py_int line with
  | inl n => mret n
  | inr msg => raise (ValueError msg)
  end.

Definition print_menu : M unit :=
  print (Text MENU_TITLE);;
  print (Text MENU_1);;
  print (Text MENU_2);;
  print (Text MENU_3);;
  print (Text MENU_4);;
  print (Text MENU_0).

(** The [if]/[elif] chain on the choice; [false] stands for [break]. *)
Definition main_choice (choice : pystr) : M bool :=
  if str_eqb choice CHOICE_1 then
    page_num ← input_int ASK_PAGE;
    entries_per_page ← input_int ASK_PAGE_SIZE;
    display_page page_num entries_per_page;;
    mret true
  else if str_eqb choice CHOICE_2 then add_entry;; mret true
  else if str_eqb choice CHOICE_3 then
    entry_idx ← input_int ASK_INDEX;
    edit_entry entry_idx;;
    mret true
  else if str_eqb choice CHOICE_4 then search_entries;; mret true
  else if str_eqb choice CHOICE_0 then mret false
  else print (Text MSG_BAD_CHOICE);; mret true.

(** One turn of the loop of [main]. *)
Definition main_turn : M bool :=
  print_menu;;
  choice ← input ASK_CHOICE;
  main_choice choice.

(** [while True:] run for at most [fuel] turns; [None] when the turns run
    out before the loop ends. *)
Fixpoint main_loop (fuel : nat) (w : world) : option (result unit * world) :=
  match fuel with
  | O => None
  | S fuel' =>
      match main_turn w with
      | (Raise e, w') => Some (Raise e, w')
      | (Ok false, w') => Some (Ok tt, w')
      | (Ok true, w') => main_loop fuel' w'
      end
  end.

(** [main]: the list is loaded, then the loop runs.  Every turn reads a
    line, so one turn more than there are lines is enough
    ([main_loop_enough] below). *)
Definition main_with (fuel : nat) (w : world) : option (result unit * world) :=
  match load_phonebook w with
  | (Ok pb, w') => main_loop fuel (set_phonebook w' pb)
  | (Raise e, w') => Some (Raise e, w')
  end.

Definition main (w : world) : option (result unit * world) :=
  main_with (S (length (stdin w))) w.

(** ** 6. Notions used in the statements *)

(** A dict with no other keys than the seven column names. *)
Definition known (e : dict) : bool := forallb (known_key fieldnames) e.

(** The entries with the ids that [save_phonebook] gives them. *)
Fixpoint renumber (idx : Z) (pb : list dict) : list dict :=
  match pb with
  | [] => []
  | entry :: rest => setitem entry (Item K_ID (VInt idx)) :: renumber (idx + 1) rest
  end.

Definition keys (e : dict) : list (option pystr) :=
  map (fun it => match it with Item k _ => Some k | Surplus _ => None end) e.

Definition is_str (it : item) : bool :=
  match it with
  | Item _ (VStr _) => true
  | _ => false
  end.

Definition text_keys : list pystr :=
  [K_LAST; K_FIRST; K_PATRONYMIC; K_ORG; K_WORK; K_PERSONAL].

Definition nonblank_text (e : dict) (k : pystr) : bool :=
  match get e k with
  | Some (VStr s) => truthy (strip s)
  | _ => false
  end.

Definition phone_text (e : dict) (k : pystr) : bool :=
  match get e k with
  | Some (VStr s) => validate_phone_number s
  | _ => false
  end.

(** A valid record of the specification: the seven fields and no other,
    the six texts not blank, the two phones in the pattern. *)
Definition valid_record (e : dict) : bool :=
  known e && forallb (nonblank_text e) text_keys
  && phone_text e K_WORK && phone_text e K_PERSONAL.

(** [t] is [s] without its leading and trailing whitespace. *)
Definition trims_to (s t : pystr) : Prop :=
  exists l r, s = l ++ t ++ r
    /\ forallb isspace l = true /\ forallb isspace r = true
    /\ (forall c, list.head t = Some c -> isspace c = false)
    /\ (forall c, list.last t = Some c -> isspace c = false).

(** The phone format read as the whole string: [+7 (DDD) DDD-DD-DD]. *)
Definition PHONE_OPEN : pystr := Eval vm_compute in u "+7 (".
Definition PHONE_CLOSE : pystr := Eval vm_compute in u ") ".
Definition PHONE_DASH : pystr := Eval vm_compute in u "-".

Definition full_phone (s : pystr) : Prop :=
  exists a b c d,
    s = PHONE_OPEN ++ a ++ PHONE_CLOSE ++ b ++ PHONE_DASH ++ c ++ PHONE_DASH ++ d
    /\ length a = 3%nat /\ length b = 3%nat /\ length c = 2%nat /\ length d = 2%nat
    /\ forallb is_digit (a ++ b ++ c ++ d) = true.

(** Every data row of the file has as many cells as the header row. *)
Definition rectangular (text : pystr) : Prop :=
  match csv_reader text with
  | Ok (names :: rows) => Forall (fun row => row = [] \/ length row = length names) rows
  | _ => True
  end.

(** The world in which [edit_entry] asks for the new data of [entry]. *)
Definition shown (w : world) (entry : dict) : world :=
  set_stdout w (stdout w ++ [Text MSG_CURRENT; Repr entry]).

(** The states in which the reader expects a new field. *)
Definition field_start (p : parser) : Prop :=
  (state p = START_RECORD \/ state p = START_FIELD) /\ field p = [].

(** The states in which the reader has read a whole cell [s] and waits for
    the delimiter or the end of the line. *)
Definition cell_read (p0 : parser) (s : pystr) (q : parser) : Prop :=
  fields q = fields p0 /\ field q = s
  /\ (state q = IN_FIELD \/ state q = QUOTE_IN_QUOTED_FIELD
      \/ (csv_field s = [] /\ state q = state p0)).

(** The record that comes back for a dict written by [DictWriter]. *)
Definition read_back (e : dict) : dict :=
  map (fun k => Item k (VStr (cell_text (default (VStr []) (get e k))))) fieldnames.

(** An action that leaves the phone book and the file alone. *)
Definition keeps_store {A} (m : M A) : Prop :=
  forall w, phonebook (m w).2 = phonebook w /\ disk (m w).2 = disk w.

(** What an action can return. *)
Definition returns {A} (m : M A) (P : A -> Prop) : Prop :=
  forall w a w', m w = (Ok a, w') -> P a.

(** The dict of a contact typed in: six texts under the six keys. *)
Definition contact_shape (cd : dict) : Prop :=
  exists last first patronymic org work personal,
    cd = [Item K_LAST (VStr last); Item K_FIRST (VStr first);
          Item K_PATRONYMIC (VStr patronymic); Item K_ORG (VStr org);
          Item K_WORK (VStr work); Item K_PERSONAL (VStr personal)].

(** The search term occurs in the lowered text of some value of the entry. *)
Definition entry_matches (search_term : pystr) (entry : dict) : bool :=
  existsb (fun it => match it with
                     | Item _ (VStr s) => contains (lower s) search_term
                     | _ => false
                     end) entry.

(** An action that takes its input from the front of the pending lines and
    puts nothing back. *)
Definition reads_forward {A} (m : M A) : Prop :=
  forall w, stdin (m w).2 `suffix_of` stdin w.

(** The exceptions with which an action can end, and the worlds in which
    it then leaves the program. *)
Definition raises_only {A} (m : M A) (P : exn -> world -> Prop) : Prop :=
  forall w e w', m w = (Raise e, w') -> P e w'.

(** EOFError, with no line left to read. *)
Definition at_eof (e : exn) (w : world) : Prop := e = EOFError /\ stdin w = [].

(** A record whose id is an integer, as [save_phonebook] leaves it. *)
Definition int_id (e : dict) : Prop := exists n, get e K_ID = Some (VInt n).

(** What [main] prints at the start of every turn. *)
Definition menu : list printed :=
  [Text MENU_TITLE; Text MENU_1; Text MENU_2; Text MENU_3; Text MENU_4; Text MENU_0].

(** The five choices that the menu knows. *)
Definition choices : list pystr := [CHOICE_1; CHOICE_2; CHOICE_3; CHOICE_4; CHOICE_0].

(** *** Sample data *)

(** What a user types for a new contact, and a search text that occurs in
    none of its fields. *)
Definition sample_input : list pystr :=
  Eval vm_compute in
    [u "Ivanov"; u "Ivan"; u "Ivanovich"; u "Ivanov LLC";
     u "+7 (123) 456-78-90"; u "+7 (123) 456-78-91"].

Definition sample_term : pystr := Eval vm_compute in u "petrov".

(** The dict that [input_contact_data] builds from [sample_input]. *)
Definition sample_contact : dict :=
  Eval vm_compute in
    [Item K_LAST (VStr (u "Ivanov")); Item K_FIRST (VStr (u "Ivan"));
     Item K_PATRONYMIC (VStr (u "Ivanovich")); Item K_ORG (VStr (u "Ivanov LLC"));
     Item K_WORK (VStr (u "+7 (123) 456-78-90"));
     Item K_PERSONAL (VStr (u "+7 (123) 456-78-91"))].

(** A contact as it is in memory before its first save. *)
Definition contact : pystr -> dict :=
  Eval vm_compute in
    fun last =>
      [Item K_LAST (VStr last); Item K_FIRST (VStr (u "Piotr"));
       Item K_PATRONYMIC (VStr (u "P.")); Item K_ORG (VStr (u "Acme"));
       Item K_WORK (VStr (u "+7 (495) 111-22-33"));
       Item K_PERSONAL (VStr (u "+7 (916) 444-55-66"))].

Definition sample_book : list dict :=
  Eval vm_compute in
    [contact (u "Petrov"); contact (u "Sidorov"); contact (u "Smirnov");
     contact (u "Kuznetsov"); contact (u "Popov")].

Definition sample_world : world := mkWorld sample_input [] None sample_book.

(** The list as [load_phonebook] returns it from the file that
    [save_phonebook] wrote for the first two sample contacts. *)
Definition loaded_book : list dict :=
  Eval vm_compute in map read_back (renumber 1 (take 2 sample_book)).


(** A file whose data row is shorter than its header row. *)
Definition ragged_file : pystr := Eval vm_compute in u "ID,Name" ++ [CR; LF; 49; CR; LF].

(** A start of the program: the lines that will be typed, nothing printed
    yet, no file. *)
Definition typed (lines : list pystr) (pb : list dict) : world := mkWorld lines [] None pb.

(** A record with a key that is not a column of the file, in a list. *)
Definition K_EMAIL : pystr := Eval vm_compute in u "Email".

Definition sample_extra : dict :=
  Eval vm_compute in contact (u "Orlov") ++ [Item K_EMAIL (VStr (u "orlov@example.org"))].

Definition extra_book : list dict :=
  Eval vm_compute in [contact (u "Petrov"); sample_extra; contact (u "Popov")].

Definition extra_world : world := mkWorld sample_input [] None extra_book.

(** A csv file with two columns of its own. *)
Definition foreign_names : list pystr := Eval vm_compute in [u "Name"; u "Phone"].

Definition foreign_rows : list (list pystr) :=
  Eval vm_compute in [[u "Ann"; u "1"]; [u "Bob, Jr."; u "2"]].

(** The four texts that [input_contact_data] asks for: prompt and field
    name. *)
Definition text_questions : list (pystr * pystr) :=
  [(ASK_LAST, K_LAST); (ASK_FIRST, K_FIRST); (ASK_PATRONYMIC, K_PATRONYMIC);
   (ASK_ORG, K_ORG)].

(** ** 7. The csv reader reads back what the csv writer wrote *)

Lemma bind_Ok {A B} (a : A) (k : A -> result B) : (Ok a ≫= k) = k a.
Proof. reflexivity. Qed.

Lemma bind_Raise {A B} (e : exn) (k : A -> result B) : (Raise e ≫= k) = Raise e.
Proof. reflexivity. Qed.

Lemma feed_app (p : parser) (a b : pystr) :
  feed p (a ++ b) = feed p a ≫= fun q => feed q b.
Proof.
  revert p. induction a as [|c a IH]; intros p; simpl; [reflexivity|].
  destruct (parse_process_char p (Ch c)) as [q|e]; simpl; [apply IH|reflexivity].
Qed.

Lemma reader_rows_cons (p : parser) (line : pystr) (rest : list pystr) :
  reader_rows p (line :: rest)
  = feed p line ≫= fun q => after_line q (fun q' => reader_rows q' rest).
Proof.
  simpl. unfold process_line, after_line.
  destruct (feed p line) as [q|e]; simpl; [|reflexivity].
  destruct (parse_process_char q EOL) as [q'|e]; reflexivity.
Qed.

(** A line under construction that already has characters is the start of
    the first line that [readlines_from] returns. *)
Lemma readlines_from_first (t cur : pystr) :
  cur <> [] -> exists more rest, readlines_from cur t = (cur ++ more) :: rest.
Proof.
  revert cur. induction t as [|c t IH]; intros cur Hcur; simpl.
  - destruct cur; [congruence|]. exists [], []. by rewrite app_nil_r.
  - destruct (c =? LF); [by eexists _, _|].
    destruct (c =? CR).
    + destruct t as [|c' t]; [by eexists _, _|].
      destruct (c' =? LF); by eexists _, _.
    + destruct (IH (cur ++ [c])) as (more & rest & ->); [by destruct cur|].
      exists (c :: more), rest. by rewrite <- app_assoc.
Qed.

Lemma reader_rows_raise (p : parser) (cur t : pystr) (e : exn) :
  feed p cur = Raise e -> reader_rows p (readlines_from cur t) = Raise e.
Proof.
  intros Hfeed.
  destruct (readlines_from_first t cur) as (more & rest & ->).
  { intros ->. discriminate. }
  rewrite reader_rows_cons, feed_app, Hfeed. reflexivity.
Qed.

(** Reading line by line is one pass over the characters. *)
Lemma reader_rows_scan (t cur : pystr) (p0 p : parser) :
  feed p0 cur = Ok p ->
  reader_rows p0 (readlines_from cur t) = scan p (truthy cur) t.
Proof.
  revert cur p0 p.
  induction t as [t IH] using (induction_ltof1 _ (@length char)); unfold ltof in IH.
  intros cur p0 p Hcur.
  assert (Hline : forall ending rest,
    reader_rows p0 ((cur ++ ending) :: rest)
    = feed p ending ≫= fun q => after_line q (fun q' => reader_rows q' rest)).
  { intros. by rewrite reader_rows_cons, feed_app, Hcur. }
  destruct t as [|c t]; cbn [readlines_from scan].
  - destruct cur as [|c0 cur]; cbn [truthy].
    + simpl in Hcur. by inversion Hcur.
    + rewrite <- (app_nil_r (c0 :: cur)), Hline. reflexivity.
  - destruct (parse_process_char p (Ch c)) as [p1|e] eqn:Hc; rewrite ?bind_Ok, ?bind_Raise.
    + destruct (c =? LF) eqn:HLF.
      { rewrite Hline. cbn [feed]. rewrite Hc, !bind_Ok. unfold after_line.
        destruct (parse_process_char p1 EOL) as [p2|e]; rewrite ?bind_Ok, ?bind_Raise; [|reflexivity].
        destruct (is_start_record p2);
          rewrite (IH t (Nat.lt_succ_diag_r _) [] _ _ eq_refl); reflexivity. }
      destruct (c =? CR) eqn:HCR.
      { destruct t as [|c' t].
        - rewrite Hline. cbn [feed]. rewrite Hc. reflexivity.
        - destruct (c' =? LF) eqn:HLF'.
          + rewrite Hline. cbn [feed]. rewrite Hc, !bind_Ok.
            destruct (parse_process_char p1 (Ch c')) as [p2|e]; rewrite ?bind_Ok, ?bind_Raise; [|reflexivity].
            unfold after_line.
            destruct (parse_process_char p2 EOL) as [p3|e]; rewrite ?bind_Ok, ?bind_Raise; [|reflexivity].
            destruct (is_start_record p3);
              rewrite (IH t (Nat.lt_lt_succ_r _ _ (Nat.lt_succ_diag_r _)) [] _ _ eq_refl);
              reflexivity.
          + rewrite Hline. cbn [feed]. rewrite Hc, !bind_Ok. unfold after_line.
            destruct (parse_process_char p1 EOL) as [p2|e]; rewrite ?bind_Ok, ?bind_Raise; [|reflexivity].
            destruct (is_start_record p2);
              rewrite (IH (c' :: t) (Nat.lt_succ_diag_r _) [] _ _ eq_refl); reflexivity. }
      rewrite (IH t (Nat.lt_succ_diag_r _) (cur ++ [c]) p0 p1).
      * by destruct cur.
      * rewrite feed_app, Hcur, bind_Ok. cbn [feed]. by rewrite Hc.
    + destruct (c =? LF) eqn:HLF.
      { rewrite Hline. cbn [feed]. by rewrite Hc. }
      destruct (c =? CR) eqn:HCR.
      { destruct t as [|c' t]; [|destruct (c' =? LF)]; rewrite Hline; cbn [feed]; by rewrite Hc. }
      apply reader_rows_raise. rewrite feed_app, Hcur, bind_Ok. cbn [feed]. by rewrite Hc.
Qed.

Lemma csv_reader_scan (t : pystr) : csv_reader t = scan parse_reset false t.
Proof. unfold csv_reader, readlines. by rewrite (reader_rows_scan t [] parse_reset parse_reset). Qed.

Lemma csv_special_false (c : char) :
  csv_special c = false ->
  (c =? COMMA) = false /\ (c =? DQUOTE) = false /\ (c =? LF) = false /\ (c =? CR) = false.
Proof.
  unfold csv_special, is_newline. intros H.
  apply orb_false_elim in H as [H1 H2].
  apply orb_false_elim in H1 as [Ha Hb].
  apply orb_false_elim in H2 as [Hc Hd]. auto.
Qed.

Lemma is_newline_false (c : char) :
  (c =? LF) = false -> (c =? CR) = false -> is_newline c = false.
Proof. unfold is_newline. by intros -> ->. Qed.

(** A character inside a quoted field is added to the field, wherever the
    lines of the file end. *)
Lemma scan_in_quoted (p : parser) (b : bool) (c : char) (t : pystr) :
  state p = IN_QUOTED_FIELD -> (c =? DQUOTE) = false ->
  scan p b (c :: t) = scan (parse_add_char p c) (negb (is_newline c)) t.
Proof.
  intros Hp Hc.
  assert (Hstep : forall q x, state q = IN_QUOTED_FIELD -> (x =? DQUOTE) = false ->
            parse_process_char q (Ch x) = Ok (parse_add_char q x)).
  { intros q x Hq Hx. unfold parse_process_char. by rewrite Hq, Hx. }
  assert (Hline : forall q k, state q = IN_QUOTED_FIELD ->
            after_line q k = k q).
  { intros q k Hq. unfold after_line, parse_process_char. rewrite Hq, bind_Ok.
    unfold is_start_record. by rewrite Hq. }
  cbn [scan]. rewrite (Hstep p c Hp Hc), bind_Ok.
  unfold is_newline.
  destruct (c =? LF) eqn:HLF; [by rewrite Hline|].
  destruct (c =? CR) eqn:HCR; [|reflexivity].
  destruct t as [|c' t]; cbn [scan orb negb].
  - by rewrite Hline.
  - destruct (c' =? LF) eqn:HLF'; [|by rewrite Hline].
    assert (Hc' : (c' =? DQUOTE) = false).
    { apply N.eqb_eq in HLF'. by subst c'. }
    rewrite (Hstep (parse_add_char p c) c' Hp Hc'), !bind_Ok. reflexivity.
Qed.

Lemma scan_quoted_body (body pre : pystr) (fs : list pystr) (b : bool) :
  exists b', forall t,
    scan (mkParser IN_QUOTED_FIELD pre fs) b (flat_map csv_double body ++ t)
    = scan (mkParser IN_QUOTED_FIELD (pre ++ body) fs) b' t.
Proof.
  revert pre b. induction body as [|c body IH]; intros pre b.
  - exists b. intros t. simpl. by rewrite app_nil_r.
  - cbn [flat_map]. unfold csv_double at 1.
    destruct (c =? DQUOTE) eqn:Hq.
    + apply N.eqb_eq in Hq. subst c.
      destruct (IH (pre ++ [DQUOTE]) true) as [b' Hb'].
      exists b'. intros t.
      replace (pre ++ DQUOTE :: body) with ((pre ++ [DQUOTE]) ++ body)
        by (by rewrite <- app_assoc).
      rewrite <- Hb', <- app_assoc. reflexivity.
    + destruct (IH (pre ++ [c]) (negb (is_newline c))) as [b' Hb'].
      exists b'. intros t.
      replace (pre ++ c :: body) with ((pre ++ [c]) ++ body) by (by rewrite <- app_assoc).
      cbn [app]. rewrite scan_in_quoted by done. apply Hb'.
Qed.

Lemma scan_plain_body (s pre : pystr) (fs : list pystr) (b : bool) :
  existsb csv_special s = false ->
  exists b', forall t,
    scan (mkParser IN_FIELD pre fs) b (s ++ t) = scan (mkParser IN_FIELD (pre ++ s) fs) b' t.
Proof.
  revert pre b. induction s as [|c s IH]; intros pre b Hs.
  - exists b. intros t. simpl. by rewrite app_nil_r.
  - simpl in Hs. apply orb_false_elim in Hs as [Hc Hs].
    destruct (csv_special_false c Hc) as (Hcomma & Hquote & HLF & HCR).
    destruct (IH (pre ++ [c]) true Hs) as [b' Hb'].
    exists b'. intros t.
    replace (pre ++ c :: s) with ((pre ++ [c]) ++ s) by (by rewrite <- app_assoc).
    assert (Hstep : parse_process_char (mkParser IN_FIELD pre fs) (Ch c)
                    = Ok (mkParser IN_FIELD (pre ++ [c]) fs)).
    { unfold parse_process_char. cbn [state].
      by rewrite (is_newline_false c HLF HCR), Hcomma. }
    cbn [app scan]. rewrite Hstep, bind_Ok, HLF, HCR. apply Hb'.
Qed.

Lemma scan_cell (s : pystr) (p : parser) (b : bool) :
  field_start p ->
  exists q b', cell_read p s q
    /\ forall t, scan p b (csv_field s ++ t) = scan q b' t.
Proof.
  intros [Hst Hfield]. unfold cell_read, csv_field.
  destruct (existsb csv_special s) eqn:Hs.
  - (* a quoted cell *)
    destruct (scan_quoted_body s [] (fields p) true) as [b' Hb'].
    exists (mkParser QUOTE_IN_QUOTED_FIELD s (fields p)), true.
    split; [simpl; auto|].
    intros t. cbn [app scan].
    assert (Hopen : parse_process_char p (Ch DQUOTE) = Ok (mkParser IN_QUOTED_FIELD [] (fields p))).
    { unfold parse_process_char, start_field, set_state. rewrite Hfield.
      destruct Hst as [-> | ->]; reflexivity. }
    rewrite Hopen, bind_Ok. change (DQUOTE =? LF) with false. change (DQUOTE =? CR) with false.
    cbv iota. rewrite <- app_assoc. cbn [app]. rewrite Hb'. reflexivity.
  - (* a plain cell *)
    destruct s as [|c s].
    + exists p, b. split; [|reflexivity].
      split; [done|]. split; [done|]. right; right. done.
    + simpl in Hs. apply orb_false_elim in Hs as [Hc Hs].
      destruct (csv_special_false c Hc) as (Hcomma & Hquote & HLF & HCR).
      destruct (scan_plain_body s [c] (fields p) true Hs) as [b' Hb'].
      assert (Hfirst : parse_process_char p (Ch c) = Ok (mkParser IN_FIELD [c] (fields p))).
      { unfold parse_process_char, start_field, parse_add_char, set_state.
        rewrite (is_newline_false c HLF HCR), Hquote, Hcomma, Hfield.
        destruct Hst as [-> | ->]; reflexivity. }
      exists (mkParser IN_FIELD (c :: s) (fields p)), b'.
      split; [simpl; auto|].
      intros t. cbn [app scan]. rewrite Hfirst, bind_Ok, HLF, HCR. apply Hb'.
Qed.

Lemma csv_field_nil (s : pystr) : csv_field s = [] -> s = [].
Proof. unfold csv_field. by destruct (existsb csv_special s). Qed.

Lemma scan_after_cell_comma (p0 q : parser) (s : pystr) (b : bool) (t : pystr) :
  field_start p0 -> cell_read p0 s q ->
  scan q b (COMMA :: t) = scan (mkParser START_FIELD [] (fields p0 ++ [s])) true t.
Proof.
  intros [Hst _] (Hfs & Hf & Hq).
  assert (Hstep : parse_process_char q (Ch COMMA)
                  = Ok (mkParser START_FIELD [] (fields p0 ++ [s]))).
  { unfold parse_process_char, start_field, parse_save_field, set_state. rewrite <- Hfs, <- Hf.
    destruct Hq as [-> | [-> | [_ ->]]]; [reflexivity..|].
    destruct Hst as [-> | ->]; reflexivity. }
  cbn [scan]. rewrite Hstep. reflexivity.
Qed.

Lemma scan_after_cell_crlf (p0 q : parser) (s : pystr) (b : bool) (t : pystr) :
  field_start p0 -> cell_read p0 s q ->
  (state p0 = START_RECORD -> csv_field s <> []) ->
  scan q b (CR :: LF :: t)
  = scan parse_reset false t ≫= fun rows => Ok ((fields p0 ++ [s]) :: rows).
Proof.
  intros [Hst _] (Hfs & Hf & Hq) Hfirst.
  assert (Hstep : parse_process_char q (Ch CR)
                  = Ok (mkParser EAT_CRNL [] (fields p0 ++ [s]))).
  { unfold parse_process_char, start_field, parse_save_field, set_state. rewrite <- Hfs, <- Hf.
    destruct Hq as [-> | [-> | [Hnil Hq]]]; [reflexivity..|].
    rewrite Hq. destruct Hst as [Hst | ->]; [|reflexivity].
    by destruct (Hfirst Hst). }
  cbn [scan]. rewrite Hstep. reflexivity.
Qed.

(** A written record, read from the start of a record or of a field. *)
Lemma scan_row (cells : list pystr) (p : parser) (b : bool) (t : pystr) :
  field_start p -> cells <> [] -> (state p = START_RECORD -> cells <> [[]]) ->
  scan p b (csv_join cells ++ CR :: LF :: t)
  = scan parse_reset false t ≫= fun rows => Ok ((fields p ++ cells) :: rows).
Proof.
  revert p b. induction cells as [|s rest IH]; intros p b Hp Hne Hfirst; [done|].
  destruct (scan_cell s p b Hp) as (q & b' & Hq & Hscan).
  destruct rest as [|s' rest].
  - cbn [csv_join]. rewrite Hscan.
    apply (scan_after_cell_crlf p q s b' t Hp Hq).
    intros Hst Hnil. apply csv_field_nil in Hnil. subst s. by apply Hfirst.
  - change (csv_join (s :: s' :: rest)) with (csv_field s ++ COMMA :: csv_join (s' :: rest)).
    rewrite <- app_assoc. cbn [app]. rewrite Hscan.
    rewrite (scan_after_cell_comma p q s b' _ Hp Hq).
    rewrite IH; [| by split; [right|] | done | done]. cbn [fields].
    by rewrite <- app_assoc.
Qed.

Lemma scan_writerow (cells : list pystr) (t : pystr) :
  scan parse_reset false (writer_writerow cells ++ t)
  = scan parse_reset false t ≫= fun rows => Ok (cells :: rows).
Proof.
  assert (Hrow : cells <> [] -> cells <> [[]] ->
            scan parse_reset false ((csv_join cells ++ [CR; LF]) ++ t)
            = scan parse_reset false t ≫= fun rows => Ok (cells :: rows)).
  { intros H1 H2. rewrite <- app_assoc. cbn [app].
    rewrite scan_row; [reflexivity | by split; [left|] | done | done]. }
  destruct cells as [|s rest]; [reflexivity|].
  destruct s as [|c s], rest as [|s' rest]; [reflexivity | by apply Hrow..].
Qed.

(** The reader returns the records the writer was given. *)
Lemma csv_reader_writer (rows : list (list pystr)) :
  csv_reader (concat (map writer_writerow rows)) = Ok rows.
Proof.
  rewrite csv_reader_scan.
  induction rows as [|cells rows IH]; [reflexivity|].
  cbn [map concat]. by rewrite scan_writerow, IH.
Qed.

(** ** 8. Validation *)

Lemma lstrip_split (s : pystr) :
  exists l, s = l ++ lstrip s /\ forallb isspace l = true.
Proof.
  induction s as [|c s (l & Hs & Hl)]; [by exists []|].
  simpl. destruct (isspace c) eqn:Hc.
  - exists (c :: l). simpl. rewrite Hc, Hl. split; [by f_equal|done].
  - by exists [].
Qed.

Lemma lstrip_head (s : pystr) (c : char) :
  list.head (lstrip s) = Some c -> isspace c = false.
Proof.
  induction s as [|x s IH]; [done|].
  simpl. destruct (isspace x) eqn:Hx; [done|].
  simpl. by intros [= <-].
Qed.

Lemma last_rev (s : pystr) : list.last (rev s) = list.head s.
Proof. destruct s as [|c s]; [done|]. simpl. by rewrite last_snoc. Qed.

Lemma forallb_rev (f : char -> bool) (l : pystr) : forallb f (rev l) = forallb f l.
Proof.
  induction l as [|c l IH]; [done|].
  simpl. rewrite forallb_app, IH. simpl. by rewrite andb_true_r, andb_comm.
Qed.

(** [strip] cuts [s] down to what lies between its first and its last
    character that is not whitespace. *)
Lemma strip_trims (s : pystr) : trims_to s (strip s).
Proof.
  unfold trims_to, strip, rstrip.
  destruct (lstrip_split s) as (l & Hs & Hl).
  destruct (lstrip_split (rev (lstrip s))) as (r & Hr & Hrs).
  assert (Hmid : lstrip s = rev (lstrip (rev (lstrip s))) ++ rev r).
  { rewrite <- rev_app_distr, <- Hr. by rewrite rev_involutive. }
  exists l, (rev r). repeat split.
  - by rewrite <- Hmid.
  - done.
  - by rewrite forallb_rev.
  - intros c Hc. apply (lstrip_head s). rewrite Hmid, head_app, Hc. done.
  - intros c. rewrite last_rev. apply lstrip_head.
Qed.

Lemma forallb_isspace_elem (l : pystr) (c : char) :
  forallb isspace l = true -> c ∈ l -> isspace c = true.
Proof.
  intros Hl Hc. rewrite forallb_forall in Hl. apply Hl. by apply list_elem_of_In.
Qed.

Lemma strip_nonempty (s : pystr) :
  (exists c, c ∈ s /\ isspace c = false) <-> strip s <> [].
Proof.
  destruct (strip_trims s) as (l & r & Hs & Hl & Hr & Hhead & _).
  split.
  - intros (c & Hc & Hsp) Hnil. rewrite Hnil in Hs. simpl in Hs. subst s.
    apply elem_of_app in Hc as [Hc | Hc];
      [rewrite (forallb_isspace_elem l c Hl Hc) in Hsp
      |rewrite (forallb_isspace_elem r c Hr Hc) in Hsp]; discriminate.
  - intros Hne. destruct (strip s) as [|c t] eqn:Ht; [done|].
    exists c. split; [|by apply Hhead].
    rewrite Hs. apply elem_of_app. right. apply elem_of_app. left. by left.
Qed.

(** C7. For a string with a character that is not whitespace,
    [validate_string_input] returns the string trimmed; for a string that
    is empty once trimmed it raises the ValueError whose text starts with
    the field name. *)
Theorem validate_string_input_trims (s field_name : pystr) :
  ((exists c, c ∈ s /\ isspace c = false) ->
     validate_string_input s field_name = Ok (strip s) /\ trims_to s (strip s))
  /\ (strip s = [] ->
        validate_string_input s field_name = Raise (ValueError (field_name ++ MSG_EMPTY))).
Proof.
  unfold validate_string_input. split.
  - intros H. apply strip_nonempty in H. split; [|apply strip_trims].
    by destruct (strip s).
  - by intros ->.
Qed.

(** ** 9. The phone pattern *)

Lemma match_atoms_app (p : list atom) (s rest : pystr) :
  length s = length p -> forallb (fun ac => match_atom ac.1 ac.2) (zip p s) = true ->
  match_atoms p (s ++ rest) = Some rest.
Proof.
  revert s. induction p as [|a p IH]; intros [|c s] Hlen Hall; try done.
  simpl in *. apply andb_prop in Hall as [-> Hall]. apply IH; [lia|done].
Qed.

Lemma validate_phone_number_sample :
  validate_phone_number (u "+7 (123) 456-78-90") = true
  /\ validate_phone_number (u "+7(123)4567890") = false
  /\ validate_phone_number (u "+7 (12) 345-67-89") = false.
Proof. repeat split; reflexivity. Qed.

Lemma match_atoms_Some (p : list atom) (s rest : pystr) :
  match_atoms p s = Some rest ->
  exists pre, s = pre ++ rest /\ length pre = length p
    /\ forallb (fun ac => match_atom ac.1 ac.2) (zip p pre) = true.
Proof.
  revert s. induction p as [|a p IH]; intros s H.
  - simpl in H. injection H as ->. by exists [].
  - destruct s as [|c s]; [done|]. simpl in H.
    destruct (match_atom a c) eqn:Hc; [|done].
    destruct (IH s H) as (pre & -> & Hlen & Hall).
    exists (c :: pre). simpl. rewrite Hc, Hall, Hlen. done.
Qed.

Lemma full_phone_length (s : pystr) : full_phone s -> length s = 18%nat.
Proof.
  intros (a & b & c & d & -> & Ha & Hb & Hc & Hd & _).
  rewrite !length_app, Ha, Hb, Hc, Hd. reflexivity.
Qed.

(** The atoms of the pattern match a string of their length exactly when
    the string has the phone format. *)
Lemma phone_pattern_full (s : pystr) :
  match_atoms phone_pattern s = Some [] <-> full_phone s.
Proof.
  split.
  - intros H. apply match_atoms_Some in H as (pre & -> & Hlen & Hall).
    rewrite app_nil_r.
    destruct pre as [|x1 [|x2 [|x3 [|x4 [|d1 [|d2 [|d3 [|x5 [|x6 [|d4 [|d5 [|d6 [|x7
      [|d7 [|d8 [|x8 [|d9 [|d10 [|? ?]]]]]]]]]]]]]]]]]]]; try discriminate Hlen.
    cbn in Hall.
    repeat match goal with
           | H : _ && _ = true |- _ => apply andb_prop in H as [? H]
           | H : (_ =? _) = true |- _ => apply N.eqb_eq in H; subst
           end.
    exists [d1; d2; d3], [d4; d5; d6], [d7; d8], [d9; d10].
    repeat split. cbn.
    repeat match goal with
           | H : is_digit _ = true |- _ => rewrite H; clear H
           end.
    reflexivity.
  - intros (a & b & c & d & -> & Ha & Hb & Hc & Hd & Hall).
    destruct a as [|d1 [|d2 [|d3 [|? ?]]]]; try discriminate Ha.
    destruct b as [|d4 [|d5 [|d6 [|? ?]]]]; try discriminate Hb.
    destruct c as [|d7 [|d8 [|? ?]]]; try discriminate Hc.
    destruct d as [|d9 [|d10 [|? ?]]]; try discriminate Hd.
    cbn in Hall.
    repeat match goal with
           | H : _ && _ = true |- _ => apply andb_prop in H as [? H]
           end.
    cbn.
    repeat match goal with
           | H : is_digit _ = true |- _ => rewrite H; clear H
           end.
    reflexivity.
Qed.

(** What the code accepts: the phone format, or the phone format followed
    by one newline. *)
Lemma validate_phone_number_iff (s : pystr) :
  validate_phone_number s = true
  <-> full_phone s \/ exists s', s = s' ++ [LF] /\ full_phone s'.
Proof.
  unfold validate_phone_number. split.
  - destruct (match_atoms phone_pattern s) as [rest|] eqn:Hm; [|done].
    intros Hend.
    destruct (match_atoms_Some _ _ _ Hm) as (pre & -> & Hlen & Hall).
    assert (Hpre : full_phone pre).
    { apply phone_pattern_full. rewrite <- (app_nil_r pre). by apply match_atoms_app. }
    destruct rest as [|c [|c' rest]]; [left; by rewrite app_nil_r | right | done].
    simpl in Hend. apply N.eqb_eq in Hend. subst c. by exists pre.
  - intros [H | (s' & -> & H)]; apply phone_pattern_full in H.
    + by rewrite H.
    + apply match_atoms_Some in H as (pre & Hs' & Hlen & Hall).
      rewrite app_nil_r in Hs'. subst pre. by rewrite match_atoms_app.
Qed.

(** Every string in the phone format is accepted. *)
Lemma validate_phone_number_accepts (s : pystr) :
  full_phone s -> validate_phone_number s = true.
Proof. intros H. apply validate_phone_number_iff. by left. Qed.

(** C6. [validate_phone_number] accepts the sample number and rejects the
    two malformed samples, but it also accepts the sample number followed by
    a newline, which does not match the pattern as a whole: [$] stops
    before a final newline. *)
Theorem validate_phone_number_trailing_newline :
  validate_phone_number (u "+7 (123) 456-78-90") = true
  /\ validate_phone_number (u "+7(123)4567890") = false
  /\ validate_phone_number (u "+7 (12) 345-67-89") = false
  /\ validate_phone_number (u "+7 (123) 456-78-90" ++ [LF]) = true
  /\ ~ full_phone (u "+7 (123) 456-78-90" ++ [LF]).
Proof.
  repeat split; try reflexivity.
  intros H. apply full_phone_length in H. discriminate H.
Qed.

(** ** 10. Paging *)

Lemma py_slice_forward {A} (l : list A) (start count : Z) :
  (0 <= start)%Z -> (0 <= count)%Z ->
  py_slice l start (start + count) = take (Z.to_nat count) (drop (Z.to_nat start) l).
Proof.
  intros Hstart Hcount. unfold py_slice, slice_index.
  destruct (Z.ltb_spec start 0); [lia|].
  destruct (Z.ltb_spec (start + count) 0); [lia|].
  destruct (Z.le_gt_cases (Z.of_nat (length l)) start) as [Hout | Hin].
  - rewrite !Z.min_r by lia. rewrite Z.sub_diag. simpl.
    rewrite (drop_ge l (Z.to_nat start)) by lia. by rewrite take_nil.
  - rewrite (Z.min_l start) by lia.
    destruct (Z.le_gt_cases (start + count) (Z.of_nat (length l))).
    + rewrite Z.min_l by lia. f_equal. lia.
    + rewrite Z.min_r by lia.
      rewrite !take_ge; [done | rewrite length_drop; lia | rewrite length_drop; lia].
Qed.

(** C2, as the code has it.  For a page number of at least 1 and a page size
    that is not negative, [display_page] prints the entries from offset
    [(page_num - 1) * entries_per_page] on, [entries_per_page] of them or as
    many as are left; it prints nothing when the offset is at or beyond the
    end of the list or the page size is 0. *)
Theorem display_page_clipped (w : world) (page_num entries_per_page : Z) :
  (1 <= page_num)%Z -> (0 <= entries_per_page)%Z ->
  let offset := Z.to_nat ((page_num - 1) * entries_per_page) in
  let page := take (Z.to_nat entries_per_page) (drop offset (phonebook w)) in
  display_page page_num entries_per_page w
    = (Ok tt, set_stdout w (stdout w ++ map Repr page))
  /\ (forall i, page !! i = if decide (i < Z.to_nat entries_per_page)%nat
                           then phonebook w !! (offset + i)%nat else None)
  /\ ((length (phonebook w) <= offset)%nat \/ entries_per_page = 0%Z -> page = []).
Proof.
  intros Hpage Hsize offset page. split; [|split].
  - unfold display_page, mbind, M_bind, get_phonebook, print_all, page_entries.
    rewrite py_slice_forward; [reflexivity | apply Z.mul_nonneg_nonneg; lia | lia].
  - intros i. subst page. case_decide.
    + by rewrite lookup_take_lt, lookup_drop.
    + apply lookup_take_ge. lia.
  - subst page. intros [Hout | ->].
    + rewrite drop_ge by done. by rewrite take_nil.
    + reflexivity.
Qed.

(** ** 11. Editing outside the list, loading without a file *)

Lemma run_bind {A B} (m : M A) (k : A -> M B) (w : world) :
  (m ≫= k) w
  = match m w with
    | (Ok a, w') => k a w'
    | (Raise e, w') => (Raise e, w')
    end.
Proof. reflexivity. Qed.

Lemma run_get_phonebook (w : world) : get_phonebook w = (Ok (phonebook w), w).
Proof. reflexivity. Qed.

Lemma run_print (x : printed) (w : world) :
  print x w = (Ok tt, set_stdout w (stdout w ++ [x])).
Proof. reflexivity. Qed.

Lemma run_modify_phonebook (f : list dict -> list dict) (w : world) :
  modify_phonebook f w = (Ok tt, set_phonebook w (f (phonebook w))).
Proof. reflexivity. Qed.

Ltac run :=
  repeat first
    [ rewrite run_bind
    | rewrite run_get_phonebook
    | rewrite run_print
    | rewrite run_modify_phonebook ].

(** C4. For an index outside [1, len(phonebook)], [edit_entry] reports the
    bad index and nothing else happens: the list, the file and the pending
    input are as before. *)
Theorem edit_entry_out_of_range (w : world) (entry_idx : Z) :
  ~ (1 <= entry_idx <= Z.of_nat (length (phonebook w)))%Z ->
  edit_entry entry_idx w = (Ok tt, set_stdout w (stdout w ++ [Text MSG_BAD_INDEX])).
Proof.
  intros Hout. unfold edit_entry, try_except_ValueError. run.
  destruct ((0 <=? entry_idx - 1)%Z && (entry_idx - 1 <? Z.of_nat (length (phonebook w)))%Z)
    eqn:Hin; [|reflexivity].
  apply andb_prop in Hin as [H1 H2]. apply Z.leb_le in H1. apply Z.ltb_lt in H2. lia.
Qed.

(** C9. Without the file, [load_phonebook] returns the empty list and
    raises nothing. *)
Theorem load_phonebook_missing_file (w : world) :
  disk w = None -> load_phonebook w = (Ok [], w).
Proof. unfold load_phonebook. by intros ->. Qed.

(** ** 12. Dicts *)

Lemma str_eqb_eq (a b : pystr) : str_eqb a b = true <-> a = b.
Proof. unfold str_eqb. apply bool_decide_eq_true. Qed.

Lemma str_eqb_refl (a : pystr) : str_eqb a a = true.
Proof. by apply str_eqb_eq. Qed.

Lemma str_eqb_ne (a b : pystr) : a <> b -> str_eqb a b = false.
Proof. unfold str_eqb. apply bool_decide_eq_false. Qed.

Lemma get_setitem_eq (d : dict) (k : pystr) (v : value) :
  get (setitem d (Item k v)) k = Some v.
Proof.
  induction d as [|[k' v'|cells] d IH]; simpl.
  - by rewrite str_eqb_refl.
  - destruct (str_eqb k' k) eqn:Hk; simpl.
    + by rewrite str_eqb_refl.
    + by rewrite Hk.
  - done.
Qed.

Lemma get_setitem_ne (d : dict) (k k' : pystr) (v : value) :
  k' <> k -> get (setitem d (Item k v)) k' = get d k'.
Proof.
  intros Hne. induction d as [|[k0 v0|cells] d IH]; simpl.
  - by rewrite str_eqb_ne.
  - destruct (str_eqb k0 k) eqn:Hk; simpl.
    + apply str_eqb_eq in Hk. subst k0. by rewrite !str_eqb_ne.
    + by rewrite IH.
  - done.
Qed.




Lemma forallb_setitem (f : item -> bool) (d : dict) (it : item) :
  forallb f d = true -> f it = true -> forallb f (setitem d it) = true.
Proof.
  intros Hd Hit. induction d as [|x d IH]; simpl in *.
  - by rewrite Hit.
  - apply andb_prop in Hd as [Hx Hd].
    destruct (same_key x it); simpl; [by rewrite Hit | by rewrite Hx, IH].
Qed.

Lemma known_set_id (e : dict) (v : value) :
  known e = true -> known (setitem e (Item K_ID v)) = true.
Proof. intros He. by apply forallb_setitem. Qed.

(** ** 13. save_phonebook *)

Lemma length_renumber (idx : Z) (pb : list dict) : length (renumber idx pb) = length pb.
Proof. revert idx. induction pb as [|e pb IH]; intros idx; simpl; [done|]. by rewrite IH. Qed.

Lemma lookup_renumber (idx : Z) (pb : list dict) (i : nat) :
  renumber idx pb !! i
  = (fun e => setitem e (Item K_ID (VInt (idx + Z.of_nat i)))) <$> pb !! i.
Proof.
  revert idx i. induction pb as [|e pb IH]; intros idx i; [done|].
  destruct i as [|i]; simpl.
  - by rewrite Z.add_0_r.
  - rewrite IH. by replace (idx + 1 + Z.of_nat i)%Z with (idx + Z.of_nat (S i))%Z by lia.
Qed.


(** On dicts that have only the seven keys the loop runs to its end. *)
Lemma save_entries_known (idx : Z) (pb : list dict) :
  Forall (fun e => known e = true) pb ->
  save_entries idx pb
  = (renumber idx pb,
     concat (map writer_writerow (map (row_cells fieldnames) (renumber idx pb))),
     None).
Proof.
  revert idx. induction pb as [|e pb IH]; intros idx Hpb; [done|].
  apply list.Forall_cons in Hpb as [He Hpb].
  cbn [save_entries renumber map concat].
  unfold DictWriter_writerow, dict_to_list.
  change (forallb (known_key fieldnames) ?d) with (known d).
  rewrite (known_set_id e _ He), bind_Ok, (IH _ Hpb). reflexivity.
Qed.

Lemma save_phonebook_known (w : world) :
  Forall (fun e => known e = true) (phonebook w) ->
  save_phonebook w
  = (Ok tt,
     mkWorld (stdin w) (stdout w)
       (Some (concat (map writer_writerow
                (fieldnames :: map (row_cells fieldnames) (renumber 1 (phonebook w))))))
       (renumber 1 (phonebook w))).
Proof. intros H. unfold save_phonebook. by rewrite (save_entries_known 1 _ H). Qed.

(** ** 14. load_phonebook *)

Lemma DictReader_row_seven (c0 c1 c2 c3 c4 c5 c6 : pystr) :
  DictReader_row fieldnames [c0; c1; c2; c3; c4; c5; c6]
  = [Item K_ID (VStr c0); Item K_LAST (VStr c1); Item K_FIRST (VStr c2);
     Item K_PATRONYMIC (VStr c3); Item K_ORG (VStr c4); Item K_WORK (VStr c5);
     Item K_PERSONAL (VStr c6)].
Proof. reflexivity. Qed.

Lemma DictReader_row_cells (e : dict) :
  DictReader_row fieldnames (row_cells fieldnames e) = read_back e.
Proof. apply DictReader_row_seven. Qed.

Lemma DictReader_written (pb : list dict) :
  DictReader (fieldnames :: map (row_cells fieldnames) pb) = map read_back pb.
Proof.
  unfold DictReader. induction pb as [|e pb IH]; [done|].
  cbn [map]. rewrite filter_cons_True by done.
  cbn [map]. by rewrite DictReader_row_cells, IH.
Qed.

(** Loading the file that [save_phonebook] wrote. *)
Lemma load_phonebook_written (w : world) (pb : list dict) :
  disk w = Some (concat (map writer_writerow (fieldnames :: map (row_cells fieldnames) pb))) ->
  load_phonebook w = (Ok (map read_back pb), w).
Proof.
  intros Hdisk. unfold load_phonebook. rewrite Hdisk, csv_reader_writer, bind_Ok.
  by rewrite DictReader_written.
Qed.


Lemma get_read_back (e : dict) (k : pystr) :
  k ∈ fieldnames ->
  get (read_back e) k = Some (VStr (cell_text (default (VStr []) (get e k)))).
Proof.
  intros Hk. unfold fieldnames in Hk.
  repeat (apply elem_of_cons in Hk as [-> | Hk]; [reflexivity|]).
  by apply elem_of_nil in Hk.
Qed.

Lemma text_keys_fieldnames (k : pystr) : k ∈ text_keys -> k ∈ fieldnames /\ k <> K_ID.
Proof.
  intros Hk. unfold text_keys in Hk.
  repeat (apply elem_of_cons in Hk as [-> | Hk];
          [split; [unfold fieldnames; repeat constructor | discriminate]|]).
  by apply elem_of_nil in Hk.
Qed.



(** The ids and texts of what is loaded after a save of dicts with only the
    seven keys. *)
Lemma save_load (w : world) :
  Forall (fun e => known e = true) (phonebook w) ->
  exists w',
    save_phonebook w = (Ok tt, w')
    /\ phonebook w' = renumber 1 (phonebook w)
    /\ stdin w' = stdin w /\ stdout w' = stdout w
    /\ disk w' = Some (concat (map writer_writerow
                   (fieldnames :: map (row_cells fieldnames) (renumber 1 (phonebook w)))))
    /\ load_phonebook w' = (Ok (map read_back (renumber 1 (phonebook w))), w').
Proof.
  intros Hpb. eexists. split; [by apply save_phonebook_known|].
  repeat split. by apply load_phonebook_written.
Qed.

Lemma lookup_saved_loaded (pb : list dict) (i : nat) (e : dict) :
  pb !! i = Some e ->
  map read_back (renumber 1 pb) !! i
  = Some (read_back (setitem e (Item K_ID (VInt (Z.of_nat i + 1))))).
Proof.
  intros He. change (map read_back (renumber 1 pb)) with (read_back <$> renumber 1 pb).
  rewrite list_lookup_fmap, lookup_renumber, He. cbn. by rewrite Z.add_comm.
Qed.


(** ** 15. input_contact_data *)

Lemma keeps_store_ret {A} (a : A) : keeps_store (mret a : M A).
Proof. by intros w. Qed.

Lemma keeps_store_bind {A B} (m : M A) (k : A -> M B) :
  keeps_store m -> (forall a, keeps_store (k a)) -> keeps_store (m ≫= k).
Proof.
  intros Hm Hk w. rewrite run_bind. specialize (Hm w).
  destruct (m w) as [[a|e] w1]; simpl in *; [|done].
  destruct (Hk a w1) as [H1 H2]. destruct Hm as [H3 H4]. split; congruence.
Qed.

Lemma keeps_store_try {A} (body : M A) (handler : exn -> M A) :
  keeps_store body -> (forall e, keeps_store (handler e)) ->
  keeps_store (try_except_ValueError body handler).
Proof.
  intros Hm Hk w. unfold try_except_ValueError. specialize (Hm w).
  destruct (body w) as [[a|e] w1]; simpl in *; [done|].
  destruct (is_ValueError e); [|done].
  destruct (Hk e w1) as [H1 H2]. destruct Hm as [H3 H4]. split; congruence.
Qed.

Lemma keeps_store_print (x : printed) : keeps_store (print x).
Proof. by intros w. Qed.

Lemma keeps_store_input (prompt : pystr) : keeps_store (input prompt).
Proof. intros w. unfold input. by destruct (stdin w). Qed.

Lemma keeps_store_lift {A} (r : result A) : keeps_store (lift r).
Proof. by intros w. Qed.

Lemma keeps_store_ask_phone (prompt : pystr) : keeps_store (ask_phone prompt).
Proof.
  intros w. unfold ask_phone.
  by destruct (phone_loop prompt (stdin w) (stdout w)) as [[r lines] out].
Qed.

Lemma keeps_store_ask_string (prompt field_name : pystr) :
  keeps_store (ask_string prompt field_name).
Proof.
  apply keeps_store_bind; [apply keeps_store_input | intros; apply keeps_store_lift].
Qed.

Lemma keeps_store_input_contact_data : keeps_store input_contact_data.
Proof.
  unfold input_contact_data. apply keeps_store_try.
  - repeat (apply keeps_store_bind;
            [first [apply keeps_store_ask_string | apply keeps_store_ask_phone] | intros ?]).
    apply keeps_store_ret.
  - intros e. apply keeps_store_bind; [apply keeps_store_print | intros; apply keeps_store_ret].
Qed.

Lemma returns_ret {A} (a : A) (P : A -> Prop) : P a -> returns (mret a : M A) P.
Proof. intros Ha w a' w' [= <- _]. done. Qed.

Lemma returns_bind {A B} (m : M A) (k : A -> M B) (P : B -> Prop) :
  (forall a, returns (k a) P) -> returns (m ≫= k) P.
Proof.
  intros Hk w b w'. rewrite run_bind.
  destruct (m w) as [[a|e] w1]; [apply Hk|done].
Qed.

Lemma returns_try {A} (body : M A) (handler : exn -> M A) (P : A -> Prop) :
  returns body P -> (forall e, returns (handler e) P) ->
  returns (try_except_ValueError body handler) P.
Proof.
  intros Hm Hk w a w'. unfold try_except_ValueError. specialize (Hm w).
  destruct (body w) as [[a1|e] w1]; [intros [= <- <-]; by eapply Hm|].
  destruct (is_ValueError e); [apply Hk|done].
Qed.

(** [input_contact_data] returns a full contact or the empty dict. *)
Lemma input_contact_data_shape :
  returns input_contact_data (fun cd => cd = [] \/ contact_shape cd).
Proof.
  unfold input_contact_data. apply returns_try.
  - do 6 (apply returns_bind; intros ?).
    apply returns_ret. right. by eexists _, _, _, _, _, _.
  - intros e. apply returns_bind. intros _. apply returns_ret. by left.
Qed.

Lemma contact_shape_known (cd : dict) : contact_shape cd -> known cd = true.
Proof. by intros (a & b & c & d & e & f & ->). Qed.


Lemma truthy_cons {A} (l : list A) : l <> [] -> truthy l = true.
Proof. by destruct l. Qed.

Lemma run_ask_string (w : world) (prompt field_name line : pystr) (rest : list pystr) :
  stdin w = line :: rest -> strip line <> [] ->
  ask_string prompt field_name w
  = (Ok (strip line), set_stdin (set_stdout w (stdout w ++ [Prompt prompt])) rest).
Proof.
  intros Hstdin Hline. unfold ask_string. rewrite run_bind. unfold input. rewrite Hstdin.
  unfold lift, validate_string_input. by rewrite (truthy_cons _ Hline).
Qed.



(** ** 16. add_entry *)

Lemma run_save_phonebook_known (w : world) :
  Forall (fun e => known e = true) (phonebook w) ->
  exists w', save_phonebook w = (Ok tt, w')
    /\ phonebook w' = renumber 1 (phonebook w)
    /\ stdin w' = stdin w /\ stdout w' = stdout w
    /\ load_phonebook w' = (Ok (map read_back (renumber 1 (phonebook w))), w')
    /\ forall x, load_phonebook (set_stdout w' x)
                 = (Ok (map read_back (renumber 1 (phonebook w))), set_stdout w' x).
Proof.
  intros Hpb. eexists. split; [by apply save_phonebook_known|].
  do 3 (split; [done|]). split; [by apply load_phonebook_written|].
  intros x. by apply load_phonebook_written.
Qed.

(** C8. When the list holds k records with the seven keys only and a valid
    contact is typed in, [add_entry] puts it at the end and saves: the list
    has k + 1 records, the first k are the old ones in their places, the
    last is the new one with id k + 1, and the file read back has the new
    record last, with the id k + 1 as text. *)
Theorem add_entry_appends (w w1 : world) (cd : dict) :
  Forall (fun e => known e = true) (phonebook w) ->
  input_contact_data w = (Ok cd, w1) -> cd <> [] ->
  let k := length (phonebook w) in
  exists w2 loaded,
    add_entry w = (Ok tt, w2)
    /\ length (phonebook w2) = S k
    /\ phonebook w2 !! k = Some (cd ++ [Item K_ID (VInt (Z.of_nat k + 1))])
    /\ (forall j e, phonebook w !! j = Some e ->
          phonebook w2 !! j = Some (setitem e (Item K_ID (VInt (Z.of_nat j + 1)))))
    /\ load_phonebook w2 = (Ok loaded, w2)
    /\ length loaded = S k
    /\ exists r, loaded !! k = Some r
         /\ get r K_ID = Some (VStr (str_of_int (Z.of_nat k + 1)))
         /\ forall key, key ∈ text_keys -> get r key = get cd key.
Proof.
  intros Hpb Hinput Hcd k.
  destruct (input_contact_data_shape _ _ _ Hinput) as [-> | Hshape]; [done|].
  pose proof (keeps_store_input_contact_data w) as [Hbook _].
  rewrite Hinput in Hbook. simpl in Hbook.
  set (w1' := set_phonebook w1 (phonebook w1 ++ [cd])).
  assert (Hknown : Forall (fun e => known e = true) (phonebook w1')).
  { simpl. rewrite Hbook. apply Forall_app. split; [done|].
    apply Forall_singleton. by apply contact_shape_known. }
  destruct (run_save_phonebook_known w1' Hknown)
    as (w2 & Hsave & Hbook2 & _ & _ & _ & Hload).
  simpl in Hbook2. rewrite Hbook in Hbook2.
  assert (Hlast : cd ++ [Item K_ID (VInt (Z.of_nat k + 1))]
                  = setitem cd (Item K_ID (VInt (1 + Z.of_nat k)))).
  { destruct Hshape as (a & b & c & d & e & f & ->). by rewrite Z.add_comm. }
  exists (set_stdout w2 (stdout w2 ++ [Text MSG_ADDED])),
         (map read_back (renumber 1 (phonebook w ++ [cd]))).
  split; [|split; [|split; [|split; [|split; [|split]]]]].
  - unfold add_entry. rewrite run_bind, Hinput, (truthy_cons cd Hcd).
    run. change (set_phonebook w1 _) with w1'. by rewrite Hsave.
  - simpl. rewrite Hbook2, length_renumber, length_app. simpl. lia.
  - simpl. rewrite Hbook2, lookup_renumber, lookup_app_r by done.
    rewrite Nat.sub_diag. simpl. by rewrite Hlast.
  - intros j e He. simpl. rewrite Hbook2, lookup_renumber.
    rewrite lookup_app_l by (by eapply lookup_lt_Some). rewrite He. simpl.
    by rewrite Z.add_comm.
  - rewrite Hload. simpl. by rewrite Hbook.
  - rewrite length_map, length_renumber, length_app. simpl. lia.
  - eexists. split.
    { apply lookup_saved_loaded. rewrite lookup_app_r by done.
      by rewrite Nat.sub_diag. }
    split.
    + rewrite get_read_back by (unfold fieldnames; repeat constructor).
      by rewrite get_setitem_eq.
    + intros key Hkey. destruct (text_keys_fieldnames key Hkey) as [Hfield Hid].
      rewrite get_read_back by done. rewrite get_setitem_ne by done.
      destruct Hshape as (a & b & c & d & e & f & ->).
      unfold text_keys in Hkey.
      repeat (apply elem_of_cons in Hkey as [-> | Hkey]; [reflexivity|]).
      by apply elem_of_nil in Hkey.
Qed.

(** ** 17. edit_entry *)

Lemma save_entries_exn (idx : Z) (pb : list dict) (e : exn) :
  (save_entries idx pb).2 = Some e -> e = ExtraFieldsError.
Proof.
  revert idx. induction pb as [|entry pb IH]; intros idx; simpl; [done|].
  unfold DictWriter_writerow, dict_to_list.
  destruct (forallb _ _); simpl.
  - specialize (IH (idx + 1)%Z).
    by destruct (save_entries (idx + 1) pb) as [[pb' text] r].
  - by intros [= <-].
Qed.


Lemma shown_prints (w : world) (entry : dict) :
  set_stdout (set_stdout w (stdout w ++ [Text MSG_CURRENT]))
    (stdout (set_stdout w (stdout w ++ [Text MSG_CURRENT])) ++ [Repr entry])
  = shown w entry.
Proof. unfold shown, set_stdout. simpl. by rewrite <- app_assoc. Qed.



(** ** 18. The reader never fails on a file read line by line *)

Lemma step_newline_ok (p : parser) (c : char) :
  is_newline c = true -> exists q, parse_process_char p (Ch c) = Ok q.
Proof.
  intros Hc. unfold parse_process_char, start_field. rewrite Hc.
  destruct (state p); try (by eexists).
  - destruct (c =? DQUOTE); by eexists.
  - destruct (c =? DQUOTE); [by eexists|]. destruct (c =? COMMA); by eexists.
Qed.

Lemma step_char_ok (p : parser) (c : char) :
  state p <> EAT_CRNL ->
  exists q, parse_process_char p (Ch c) = Ok q
    /\ (is_newline c = false -> state q <> EAT_CRNL).
Proof.
  intros Hp. unfold parse_process_char, start_field.
  destruct (state p) eqn:Hst; [..|done];
    destruct (is_newline c), (c =? DQUOTE), (c =? COMMA);
    (eexists; split; [reflexivity|]); intros; simpl; congruence.
Qed.

Lemma step_eol_ok (p : parser) :
  exists q, parse_process_char p EOL = Ok q /\ state q <> EAT_CRNL.
Proof.
  unfold parse_process_char, start_field.
  destruct (state p) eqn:Hst; (eexists; split; [reflexivity|]); simpl; congruence.
Qed.

Lemma reader_rows_end (p : parser) : exists rows, reader_rows p [] = Ok rows.
Proof. simpl. destruct (_ || _); by eexists. Qed.

Lemma after_line_ok (p : parser) (k : parser -> result (list (list pystr))) :
  (forall q, state q <> EAT_CRNL -> exists rows, k q = Ok rows) ->
  exists rows, after_line p k = Ok rows.
Proof.
  intros Hk. unfold after_line.
  destruct (step_eol_ok p) as (q & -> & Hq). rewrite bind_Ok.
  destruct (is_start_record q).
  - destruct (Hk parse_reset) as [rows ->]; [done|]. by eexists.
  - by apply Hk.
Qed.

Lemma scan_total (t : pystr) (p : parser) (b : bool) :
  state p <> EAT_CRNL -> exists rows, scan p b t = Ok rows.
Proof.
  revert p b.
  induction t as [t IH] using (induction_ltof1 _ (@length char)); unfold ltof in IH.
  intros p b Hp. destruct t as [|c t]; cbn [scan].
  - destruct b; [|apply reader_rows_end].
    apply after_line_ok. intros q _. apply reader_rows_end.
  - destruct (step_char_ok p c Hp) as (p1 & -> & Hp1). rewrite bind_Ok.
    destruct (c =? LF) eqn:HLF.
    { apply after_line_ok. intros q Hq. apply IH; [simpl; lia|done]. }
    destruct (c =? CR) eqn:HCR.
    { destruct t as [|c' t].
      - apply after_line_ok. intros q _. apply reader_rows_end.
      - destruct (c' =? LF) eqn:HLF'.
        + destruct (step_newline_ok p1 c') as [p2 ->].
          { unfold is_newline. by rewrite HLF'. }
          rewrite bind_Ok. apply after_line_ok. intros q Hq. apply IH; [simpl; lia|done].
        + apply after_line_ok. intros q Hq. apply IH; [simpl; lia|done]. }
    apply IH; [simpl; lia|]. apply Hp1. unfold is_newline. by rewrite HLF, HCR.
Qed.

(** [csv.reader] raises nothing, whatever the text of the file. *)
Lemma csv_reader_total (t : pystr) : exists rows, csv_reader t = Ok rows.
Proof. rewrite csv_reader_scan. by apply scan_total. Qed.

Lemma load_phonebook_total (w : world) : exists pb, load_phonebook w = (Ok pb, w).
Proof.
  unfold load_phonebook. destruct (disk w) as [text|]; [|by eexists].
  destruct (csv_reader_total text) as [rows ->]. by eexists.
Qed.

(** ** 19. Strings from the file, integers from the save *)

Lemma DictReader_row_strings (names row : list pystr) :
  length row = length names -> forallb is_str (DictReader_row names row) = true.
Proof.
  intros Hlen. unfold DictReader_row.
  rewrite Hlen, Nat.ltb_irrefl, drop_all. simpl.
  assert (G : forall kvs d, forallb is_str d = true ->
            forallb is_str
              (fold_left (fun d (kv : pystr * pystr) => setitem d (Item kv.1 (VStr kv.2))) kvs d)
            = true).
  { induction kvs as [|kv kvs IH]; intros d Hd; [done|].
    simpl. apply IH. by apply forallb_setitem. }
  by apply G.
Qed.

Lemma read_back_strings (e : dict) : forallb is_str (read_back e) = true.
Proof. reflexivity. Qed.

(** C10, as the code has it.  When every data row of the file has as many
    cells as the header, as in every file written by [save_phonebook],
    [load_phonebook] returns records whose values are all strings; after a
    save and a load the id is the decimal text of the position, while the
    save has set the id of the record in memory to the position as an
    integer. *)
Theorem load_strings_save_integers (w : world) :
  (forall text, disk w = Some text -> rectangular text ->
     exists loaded, load_phonebook w = (Ok loaded, w)
       /\ Forall (fun e => forallb is_str e = true) loaded)
  /\ (Forall (fun e => known e = true) (phonebook w) ->
      exists w' loaded,
        save_phonebook w = (Ok tt, w')
        /\ load_phonebook w' = (Ok loaded, w')
        /\ (exists text, disk w' = Some text /\ rectangular text)
        /\ length (phonebook w') = length (phonebook w)
        /\ length loaded = length (phonebook w)
        /\ (forall i e, phonebook w' !! i = Some e ->
              get e K_ID = Some (VInt (Z.of_nat i + 1)))
        /\ (forall i r, loaded !! i = Some r ->
              forallb is_str r = true
              /\ get r K_ID = Some (VStr (str_of_int (Z.of_nat i + 1))))).
Proof.
  split.
  - intros text Hdisk Hrect. unfold load_phonebook, rectangular in *. rewrite Hdisk.
    destruct (csv_reader_total text) as [rows Hrows]. rewrite Hrows in *. rewrite bind_Ok.
    eexists. split; [reflexivity|].
    destruct rows as [|names rows]; [constructor|].
    unfold DictReader. apply Forall_lookup. intros i e.
    change (map ?f ?l) with (f <$> l). rewrite list_lookup_fmap.
    destruct (filter _ rows !! i) as [row|] eqn:Hrow; [|done].
    intros [= <-]. apply list_elem_of_lookup_2 in Hrow.
    apply list_elem_of_filter in Hrow as [Hblank Hin].
    rewrite Forall_forall in Hrect. destruct (Hrect row) as [-> | Hlen].
    + by apply list_elem_of_In.
    + done.
    + by apply DictReader_row_strings.
  - intros Hknown.
    destruct (save_load w Hknown) as (w' & Hsave & Hbook & _ & _ & Hdisk & Hload).
    exists w', (map read_back (renumber 1 (phonebook w))).
    split; [done|]. split; [done|]. split; [|split; [|split; [|split]]].
    + eexists. split; [exact Hdisk|]. unfold rectangular. rewrite csv_reader_writer.
      apply Forall_forall. intros row Hrow. right.
      apply in_map_iff in Hrow as (e & <- & _). reflexivity.
    + by rewrite Hbook, length_renumber.
    + by rewrite length_map, length_renumber.
    + intros i e. rewrite Hbook, lookup_renumber.
      destruct (phonebook w !! i) as [e0|]; [|done]. intros [= <-].
      rewrite get_setitem_eq. do 2 f_equal. lia.
    + intros i r. change (map ?f ?l) with (f <$> l).
      rewrite list_lookup_fmap, lookup_renumber.
      destruct (phonebook w !! i) as [e0|]; [|done]. intros [= <-].
      split; [apply read_back_strings|].
      rewrite get_read_back by (unfold fieldnames; repeat constructor).
      rewrite get_setitem_eq. cbn. do 3 f_equal. lia.
Qed.

(** ** 20. search_entries *)

Lemma any_value_matches_strings (search_term : pystr) (entry : dict) :
  forallb is_str entry = true ->
  any_value_matches search_term entry = Ok (entry_matches search_term entry).
Proof.
  induction entry as [|[k [n|s|]|cells] entry IH]; intros Hstr; try done.
  simpl in *. destruct (contains (lower s) search_term); [done|]. by apply IH.
Qed.

(** On a list whose values are all strings the search keeps, in order, the
    entries that match. *)
Lemma search_results_strings (search_term : pystr) (pb : list dict) :
  Forall (fun e => forallb is_str e = true) pb ->
  search_results search_term pb = Ok (List.filter (entry_matches search_term) pb).
Proof.
  induction pb as [|entry pb IH]; intros Hpb; [done|].
  apply list.Forall_cons in Hpb as [He Hpb].
  cbn [search_results List.filter].
  rewrite (any_value_matches_strings _ _ He), bind_Ok, (IH Hpb), bind_Ok.
  reflexivity.
Qed.

(** A blank search text is refused and asked for again. *)
Lemma search_term_loop_blank (line : pystr) (rest : list pystr) (out : list printed) :
  strip (lower line) = [] ->
  search_term_loop (line :: rest) out
  = search_term_loop rest (out ++ [Prompt ASK_SEARCH; Text MSG_BAD_SEARCH]).
Proof. intros H. simpl. by rewrite H. Qed.

(** On a list whose values are all strings, [search_entries] takes the
    first input that is not blank, lowered, and prints the entries that
    match it, in the order of the list. *)
Lemma search_entries_strings (w : world) (line : pystr) (rest : list pystr) :
  stdin w = line :: rest -> strip (lower line) <> [] ->
  Forall (fun e => forallb is_str e = true) (phonebook w) ->
  let results := List.filter (entry_matches (lower line)) (phonebook w) in
  search_entries w
  = (Ok tt,
     set_stdin
       (set_stdout w
          (stdout w ++ Prompt ASK_SEARCH
             :: (if truthy results then Text MSG_RESULTS :: map Repr results
                 else [Text MSG_NOTHING])))
       rest).
Proof.
  intros Hstdin Hterm Hstr results.
  unfold search_entries. rewrite run_bind.
  unfold ask_search_term. rewrite Hstdin. cbn [search_term_loop].
  rewrite (truthy_cons _ Hterm). cbn [negb]. run.
  unfold lift. cbn [phonebook set_stdin set_stdout].
  rewrite (search_results_strings _ _ Hstr). fold results.
  destruct results as [|r results]; cbn [truthy]; run.
  - unfold set_stdin, set_stdout. simpl. by rewrite <- app_assoc.
  - unfold print_all, set_stdin, set_stdout. simpl. by rewrite <- !app_assoc.
Qed.

(** C3. After [add_entry] has stored a contact, a search for a text that
    occurs in none of its fields does not return the empty result: it raises
    AttributeError when it asks the integer id for its lowered text. *)
Theorem search_entries_after_add_raises :
  let w0 := mkWorld (sample_input ++ [sample_term]) [] None [] in
  exists w1 w2,
    add_entry w0 = (Ok tt, w1)
    /\ stdin w1 = [sample_term]
    /\ Forall (fun e => valid_record e = true) (phonebook w1)
    /\ search_results (lower sample_term) (phonebook w1) = Raise AttributeError
    /\ search_entries w1 = (Raise AttributeError, w2).
Proof.
  eexists _, _. split; [vm_compute; reflexivity|].
  split; [reflexivity|]. split; [|split].
  - repeat constructor.
  - reflexivity.
  - vm_compute. reflexivity.
Qed.

(** ** 21. More on validation and on input_contact_data *)

Lemma lstrip_id (t : pystr) :
  (forall c, list.head t = Some c -> isspace c = false) -> lstrip t = t.
Proof. destruct t as [|c t]; [done|]. intros H. simpl. by rewrite (H c eq_refl). Qed.

Lemma head_rev (t : pystr) : list.head (rev t) = list.last t.
Proof. rewrite <- (rev_involutive t) at 2. by rewrite last_rev. Qed.

Lemma strip_idempotent (s : pystr) : strip (strip s) = strip s.
Proof.
  destruct (strip_trims s) as (l & r & _ & _ & _ & Hhead & Hlast).
  unfold strip at 1. rewrite (lstrip_id _ Hhead). unfold rstrip.
  rewrite lstrip_id; [apply rev_involutive|].
  intros c. rewrite head_rev. apply Hlast.
Qed.

(** X1. What [validate_string_input] returns is accepted again unchanged,
    under any field name: it starts and ends with a character that is not
    whitespace. *)
Theorem validate_string_input_fixpoint (s t field_name field_name' : pystr) :
  validate_string_input s field_name = Ok t ->
  validate_string_input t field_name' = Ok t
  /\ t <> []
  /\ (forall c, list.head t = Some c -> isspace c = false)
  /\ (forall c, list.last t = Some c -> isspace c = false).
Proof.
  unfold validate_string_input.
  destruct (strip s) as [|c0 t0] eqn:Hs; [done|]. intros [= <-].
  rewrite <- Hs, strip_idempotent, Hs. split; [done|]. split; [done|].
  destruct (strip_trims s) as (l & r & _ & _ & _ & Hhead & Hlast).
  rewrite Hs in Hhead, Hlast. by split.
Qed.

(** X2. What [validate_phone_number] accepts, exactly: the strings of the
    form +7 (DDD) DDD-DD-DD with D a decimal digit, and those strings
    followed by one newline; nothing else. *)
Theorem validate_phone_number_exact (s : pystr) :
  validate_phone_number s = true
  <-> full_phone s \/ exists s', s = s' ++ [LF] /\ full_phone s'.
Proof. apply validate_phone_number_iff. Qed.

Lemma phone_loop_bad (prompt : pystr) (bad lines : list pystr) (out : list printed) :
  Forall (fun line => validate_phone_number line = false) bad ->
  phone_loop prompt (bad ++ lines) out
  = phone_loop prompt lines
      (out ++ concat (map (fun _ => [Prompt prompt; Text MSG_BAD_PHONE]) bad)).
Proof.
  intros Hbad. revert out. induction Hbad as [|line bad Hline _ IH]; intros out.
  - simpl. by rewrite app_nil_r.
  - cbn [app phone_loop map concat]. rewrite Hline, IH. by rewrite <- app_assoc.
Qed.

(** X3. The phone prompt asks again after every line that fails the check,
    printing the format message each time, and returns the first line that
    passes, as typed, leaving the lines after it unread; when no line
    passes it ends with EOFError once the input is used up. *)
Theorem ask_phone_retries (w : world) (prompt : pystr) (bad : list pystr) :
  Forall (fun line => validate_phone_number line = false) bad ->
  let asked := concat (map (fun _ => [Prompt prompt; Text MSG_BAD_PHONE]) bad) in
  (forall good rest, stdin w = bad ++ good :: rest -> validate_phone_number good = true ->
     ask_phone prompt w
     = (Ok good, set_stdin (set_stdout w (stdout w ++ asked ++ [Prompt prompt])) rest))
  /\ (stdin w = bad ->
      ask_phone prompt w
      = (Raise EOFError, set_stdin (set_stdout w (stdout w ++ asked ++ [Prompt prompt])) [])).
Proof.
  intros Hbad asked. split.
  - intros good rest Hstdin Hgood. unfold ask_phone.
    rewrite Hstdin, (phone_loop_bad _ _ _ _ Hbad). simpl. rewrite Hgood.
    by rewrite <- app_assoc.
  - intros Hstdin. unfold ask_phone.
    rewrite Hstdin, <- (app_nil_r bad), (phone_loop_bad _ _ _ _ Hbad). simpl.
    by rewrite <- app_assoc.
Qed.

Lemma run_ask_string_blank (w : world) (prompt field_name line : pystr) (rest : list pystr) :
  stdin w = line :: rest -> strip line = [] ->
  ask_string prompt field_name w
  = (Raise (ValueError (field_name ++ MSG_EMPTY)),
     set_stdin (set_stdout w (stdout w ++ [Prompt prompt])) rest).
Proof.
  intros Hstdin Hline. unfold ask_string. rewrite run_bind. unfold input. rewrite Hstdin.
  unfold lift, validate_string_input. by rewrite Hline.
Qed.

(** X4. When one of the four texts is blank, [input_contact_data] stops
    asking: it prints the report of the ValueError that names the field,
    returns the empty dict, and leaves the lines after the blank one
    unread. *)
Theorem input_contact_data_blank_field (w : world) (pre : list pystr) (blank : pystr)
    (rest : list pystr) (q : pystr * pystr) :
  stdin w = pre ++ blank :: rest ->
  Forall (fun line => strip line <> []) pre ->
  strip blank = [] ->
  text_questions !! length pre = Some q ->
  input_contact_data w
  = (Ok [],
     set_stdin
       (set_stdout w
          (stdout w ++ map (fun q => Prompt q.1) (take (S (length pre)) text_questions)
             ++ [Report (ValueError (q.2 ++ MSG_EMPTY))]))
       rest).
Proof.
  intros Hstdin Hpre Hblank Hq.
  unfold input_contact_data, try_except_ValueError.
  destruct pre as [|l1 [|l2 [|l3 [|l4 [|l5 pre]]]]]; try discriminate Hq;
    injection Hq as <-;
    repeat match goal with
           | H : Forall _ (_ :: _) |- _ => apply list.Forall_cons in H as [? H]
           end;
    simpl in Hstdin.
  - rewrite run_bind, (run_ask_string_blank w _ _ _ _ Hstdin Hblank). cbn [is_ValueError].
    run. unfold set_stdin, set_stdout. simpl. by rewrite <- app_assoc.
  - rewrite run_bind, (run_ask_string w _ _ _ _ Hstdin) by done.
    rewrite run_bind. erewrite run_ask_string_blank; [|reflexivity|assumption].
    cbn [is_ValueError]. run. unfold set_stdin, set_stdout. simpl.
    by rewrite <- !app_assoc.
  - rewrite run_bind, (run_ask_string w _ _ _ _ Hstdin) by done.
    rewrite run_bind. erewrite run_ask_string; [|reflexivity|assumption].
    rewrite run_bind. erewrite run_ask_string_blank; [|reflexivity|assumption].
    cbn [is_ValueError]. run. unfold set_stdin, set_stdout. simpl.
    by rewrite <- !app_assoc.
  - rewrite run_bind, (run_ask_string w _ _ _ _ Hstdin) by done.
    do 2 (rewrite run_bind; erewrite run_ask_string; [|reflexivity|assumption]).
    rewrite run_bind. erewrite run_ask_string_blank; [|reflexivity|assumption].
    cbn [is_ValueError]. run. unfold set_stdin, set_stdout. simpl.
    by rewrite <- !app_assoc.
Qed.

Lemma returns_bind_with {A B} (m : M A) (k : A -> M B) (P : A -> Prop) (Q : B -> Prop) :
  returns m P -> (forall a, P a -> returns (k a) Q) -> returns (m ≫= k) Q.
Proof.
  intros Hm Hk w b w'. rewrite run_bind.
  destruct (m w) as [[a|e] w1] eqn:Hmw; [|done]. apply Hk. by eapply Hm.
Qed.

Lemma returns_ask_string (prompt field_name : pystr) :
  returns (ask_string prompt field_name) (fun s => strip s = s /\ s <> []).
Proof.
  intros w s w'. unfold ask_string. rewrite run_bind. unfold input.
  destruct (stdin w) as [|line rest]; [done|].
  unfold lift, validate_string_input.
  destruct (strip line) as [|c t] eqn:Hline; [done|].
  intros [= <- _]. rewrite <- Hline. split; [apply strip_idempotent|by rewrite Hline].
Qed.

Lemma returns_phone_loop (prompt : pystr) (lines : list pystr) (out : list printed)
    (s : pystr) (lines' : list pystr) (out' : list printed) :
  phone_loop prompt lines out = (Ok s, lines', out') -> validate_phone_number s = true.
Proof.
  revert out. induction lines as [|line lines IH]; intros out; simpl; [done|].
  destruct (validate_phone_number line) eqn:Hline; [by intros [= <- _ _]|apply IH].
Qed.

Lemma returns_ask_phone (prompt : pystr) :
  returns (ask_phone prompt) (fun s => validate_phone_number s = true).
Proof.
  intros w s w'. unfold ask_phone.
  destruct (phone_loop prompt (stdin w) (stdout w)) as [[r lines] out] eqn:Hloop.
  intros [= -> _]. by eapply returns_phone_loop.
Qed.

Lemma validate_phone_number_nonblank (s : pystr) :
  validate_phone_number s = true -> strip s <> [].
Proof.
  intros Hs. apply strip_nonempty. unfold validate_phone_number in Hs.
  destruct s as [|c t]; [done|]. simpl in Hs.
  destruct (c =? 43) eqn:Hc; [|done]. apply N.eqb_eq in Hc. subst c.
  exists 43. split; [by left|reflexivity].
Qed.

Lemma valid_contact (a b c d p1 p2 : pystr) :
  strip a <> [] -> strip b <> [] -> strip c <> [] -> strip d <> [] ->
  validate_phone_number p1 = true -> validate_phone_number p2 = true ->
  valid_record [Item K_LAST (VStr a); Item K_FIRST (VStr b); Item K_PATRONYMIC (VStr c);
                Item K_ORG (VStr d); Item K_WORK (VStr p1); Item K_PERSONAL (VStr p2)]
  = true.
Proof.
  intros Ha Hb Hc Hd Hp1 Hp2.
  set (cd := [Item K_LAST (VStr a); Item K_FIRST (VStr b); Item K_PATRONYMIC (VStr c);
              Item K_ORG (VStr d); Item K_WORK (VStr p1); Item K_PERSONAL (VStr p2)]).
  assert (Hknown : known cd = true) by reflexivity.
  assert (G : forall k v, get cd k = Some (VStr v) -> strip v <> [] ->
                nonblank_text cd k = true).
  { intros k v Hget Hv. unfold nonblank_text. rewrite Hget. by apply truthy_cons. }
  assert (P : forall k v, get cd k = Some (VStr v) -> validate_phone_number v = true ->
                phone_text cd k = true).
  { intros k v Hget Hv. unfold phone_text. by rewrite Hget. }
  unfold valid_record, text_keys. cbn [forallb]. rewrite Hknown.
  rewrite (G K_LAST a eq_refl Ha), (G K_FIRST b eq_refl Hb), (G K_PATRONYMIC c eq_refl Hc),
    (G K_ORG d eq_refl Hd),
    (G K_WORK p1 eq_refl (validate_phone_number_nonblank p1 Hp1)),
    (G K_PERSONAL p2 eq_refl (validate_phone_number_nonblank p2 Hp2)),
    (P K_WORK p1 eq_refl Hp1), (P K_PERSONAL p2 eq_refl Hp2).
  reflexivity.
Qed.

(** X5. Whatever [input_contact_data] returns is the empty dict or a dict
    with exactly the six text fields, each a string that is not blank, the
    first four without whitespace at either end, the two phones passing
    [validate_phone_number]; and it never touches the list or the file. *)
Theorem input_contact_data_valid_or_empty (w w' : world) (cd : dict) :
  input_contact_data w = (Ok cd, w') ->
  (cd = [] \/ (contact_shape cd /\ valid_record cd = true
               /\ forall k s, k ∈ [K_LAST; K_FIRST; K_PATRONYMIC; K_ORG] ->
                    get cd k = Some (VStr s) -> strip s = s))
  /\ phonebook w' = phonebook w /\ disk w' = disk w.
Proof.
  intros Hrun. split.
  - revert w cd w' Hrun.
    change (returns input_contact_data
              (fun cd => cd = [] \/ (contact_shape cd /\ valid_record cd = true
                 /\ forall k s, k ∈ [K_LAST; K_FIRST; K_PATRONYMIC; K_ORG] ->
                      get cd k = Some (VStr s) -> strip s = s))).
    unfold input_contact_data. apply returns_try.
    + eapply returns_bind_with; [apply returns_ask_string|]. intros a [Ha1 Ha2].
      eapply returns_bind_with; [apply returns_ask_string|]. intros b [Hb1 Hb2].
      eapply returns_bind_with; [apply returns_ask_string|]. intros c [Hc1 Hc2].
      eapply returns_bind_with; [apply returns_ask_string|]. intros d [Hd1 Hd2].
      eapply returns_bind_with; [apply returns_ask_phone|]. intros p1 Hp1.
      eapply returns_bind_with; [apply returns_ask_phone|]. intros p2 Hp2.
      apply returns_ret. right. split; [by eexists _, _, _, _, _, _|]. split.
      * apply valid_contact; try done; rewrite ?Ha1, ?Hb1, ?Hc1, ?Hd1; done.
      * intros k s Hk.
        repeat (apply elem_of_cons in Hk as [-> | Hk]; [cbn; by intros [= <-]|]).
        by apply elem_of_nil in Hk.
    + intros e. apply returns_bind. intros _. apply returns_ret. by left.
  - pose proof (keeps_store_input_contact_data w) as H. by rewrite Hrun in H.
Qed.

(** ** 22. More on save_phonebook *)



Lemma known_set_id_false (e : dict) (v : value) :
  known e = false -> known (setitem e (Item K_ID v)) = false.
Proof.
  unfold known. induction e as [|x e IH]; [done|].
  cbn [forallb setitem]. intros H.
  destruct (same_key x (Item K_ID v)) eqn:Hkey.
  - destruct x as [k' v'|cells]; [|done]. simpl in Hkey. apply str_eqb_eq in Hkey. subst k'.
    cbn [forallb]. by rewrite andb_true_l in H |- *.
  - cbn [forallb]. apply andb_false_iff in H as [H | H].
    + by rewrite H.
    + rewrite (IH H). apply andb_false_r.
Qed.

Lemma save_entries_app (idx : Z) (good rest : list dict) :
  Forall (fun e => known e = true) good ->
  save_entries idx (good ++ rest)
  = let '(rest', text, r) := save_entries (idx + Z.of_nat (length good)) rest in
    (renumber idx good ++ rest',
     concat (map writer_writerow (map (row_cells fieldnames) (renumber idx good))) ++ text,
     r).
Proof.
  intros Hgood. revert idx. induction Hgood as [|e good He _ IH]; intros idx.
  - simpl. rewrite Z.add_0_r. by destruct (save_entries idx rest) as [[? ?] ?].
  - cbn [app save_entries renumber map concat length].
    unfold DictWriter_writerow, dict_to_list.
    change (forallb (known_key fieldnames) ?d) with (known d).
    rewrite (known_set_id e _ He), bind_Ok, IH.
    replace (idx + 1 + Z.of_nat (length good))%Z
      with (idx + Z.of_nat (S (length good)))%Z by lia.
    destruct (save_entries _ rest) as [[rest' text] r]. by rewrite <- app_assoc.
Qed.

Lemma first_unknown (pb : list dict) :
  Forall (fun e => known e = true) pb
  \/ exists good bad rest,
       pb = good ++ bad :: rest /\ Forall (fun e => known e = true) good /\ known bad = false.
Proof.
  induction pb as [|e pb [IH | (good & bad & rest & -> & Hgood & Hbad)]].
  - left. constructor.
  - destruct (known e) eqn:He.
    + left. by constructor.
    + right. exists [], e, pb. repeat split; [constructor|done].
  - destruct (known e) eqn:He.
    + right. exists (e :: good), bad, rest. repeat split; [by constructor|done].
    + right. exists [], e, (good ++ bad :: rest). repeat split; [constructor|done].
Qed.

(** The save with a record that has a key outside the seven column names. *)
Lemma run_save_phonebook_extra_key (w : world) (good : list dict) (bad : dict)
    (rest : list dict) :
  phonebook w = good ++ bad :: rest ->
  Forall (fun e => known e = true) good ->
  known bad = false ->
  save_phonebook w
  = (Raise ExtraFieldsError,
     mkWorld (stdin w) (stdout w)
       (Some (concat (map writer_writerow
                (fieldnames :: map (row_cells fieldnames) (renumber 1 good)))))
       (renumber 1 good
          ++ setitem bad (Item K_ID (VInt (Z.of_nat (length good) + 1))) :: rest)).
Proof.
  intros Hpb Hgood Hbad. unfold save_phonebook.
  rewrite Hpb, (save_entries_app 1 good _ Hgood). cbn [save_entries].
  unfold DictWriter_writerow, dict_to_list.
  change (forallb (known_key fieldnames) ?d) with (known d).
  rewrite (known_set_id_false bad _ Hbad), bind_Raise.
  unfold set_phonebook, set_disk. cbn [stdin stdout disk phonebook].
  rewrite app_nil_r, (Z.add_comm 1). reflexivity.
Qed.

(** X7. [save_phonebook] stops at the first record that has a key outside
    the seven column names: it raises the ValueError of the csv writer, the
    file holds the header and the rows of the records before that one, the
    records up to and including that one have their new ids, and the
    records after it are as they were. *)
Theorem save_phonebook_stops_at_extra_key (w : world) (good : list dict) (bad : dict)
    (rest : list dict) :
  phonebook w = good ++ bad :: rest ->
  Forall (fun e => known e = true) good ->
  known bad = false ->
  save_phonebook w
  = (Raise ExtraFieldsError,
     mkWorld (stdin w) (stdout w)
       (Some (concat (map writer_writerow
                (fieldnames :: map (row_cells fieldnames) (renumber 1 good)))))
       (renumber 1 good
          ++ setitem bad (Item K_ID (VInt (Z.of_nat (length good) + 1))) :: rest)).
Proof. apply run_save_phonebook_extra_key. Qed.

Lemma save_phonebook_ok_known (w : world) :
  (save_phonebook w).1 = Ok tt -> Forall (fun e => known e = true) (phonebook w).
Proof.
  intros Hok.
  destruct (first_unknown (phonebook w)) as [H | (good & bad & rest & Hpb & Hgood & Hbad)];
    [done|].
  by rewrite (run_save_phonebook_extra_key w good bad rest Hpb Hgood Hbad) in Hok.
Qed.


Lemma setitem_setitem (d : dict) (k : pystr) (v v' : value) :
  setitem (setitem d (Item k v)) (Item k v') = setitem d (Item k v').
Proof.
  induction d as [|x d IH]; simpl.
  - by rewrite str_eqb_refl.
  - destruct (same_key x (Item k v)) eqn:Hx.
    + simpl. rewrite str_eqb_refl.
      assert (Hx' : same_key x (Item k v') = true) by (by destruct x).
      by rewrite Hx'.
    + simpl. assert (Hx' : same_key x (Item k v') = false) by (by destruct x).
      by rewrite Hx', IH.
Qed.

Lemma renumber_renumber (idx : Z) (pb : list dict) :
  renumber idx (renumber idx pb) = renumber idx pb.
Proof.
  revert idx. induction pb as [|e pb IH]; intros idx; [done|].
  simpl. by rewrite setitem_setitem, IH.
Qed.

Lemma known_renumber (idx : Z) (pb : list dict) :
  Forall (fun e => known e = true) pb ->
  Forall (fun e => known e = true) (renumber idx pb).
Proof.
  intros H. revert idx. induction H as [|e pb He _ IH]; intros idx; simpl; constructor.
  - by apply known_set_id.
  - apply IH.
Qed.

(** X9. Saving is idempotent: after a save that ended well, a second save
    changes neither the list nor the file. *)
Theorem save_phonebook_idempotent (w : world) :
  Forall (fun e => known e = true) (phonebook w) ->
  save_phonebook (save_phonebook w).2 = (Ok tt, (save_phonebook w).2).
Proof.
  intros H. rewrite (save_phonebook_known w H). cbn [snd].
  rewrite save_phonebook_known by (by apply known_renumber).
  cbn [stdin stdout phonebook]. by rewrite renumber_renumber.
Qed.

(** ** 23. More on load_phonebook *)


Lemma row_cells_read_back (e : dict) (v : value) :
  row_cells fieldnames (setitem (read_back e) (Item K_ID v))
  = row_cells fieldnames (setitem e (Item K_ID v)).
Proof.
  unfold row_cells. apply map_ext_in. intros k Hk. apply list_elem_of_In in Hk.
  destruct (decide (k = K_ID)) as [-> | Hne].
  - by rewrite !get_setitem_eq.
  - rewrite !get_setitem_ne by done. by rewrite get_read_back.
Qed.

Lemma row_cells_set_id (e : dict) (v : value) :
  row_cells fieldnames (setitem (setitem e (Item K_ID v)) (Item K_ID v))
  = row_cells fieldnames (setitem e (Item K_ID v)).
Proof. by rewrite setitem_setitem. Qed.

Lemma rows_reloaded (idx : Z) (pb : list dict) :
  map (row_cells fieldnames) (renumber idx (map read_back (renumber idx pb)))
  = map (row_cells fieldnames) (renumber idx pb).
Proof.
  revert idx. induction pb as [|e pb IH]; intros idx; [done|].
  cbn [renumber map]. rewrite IH. f_equal.
  by rewrite row_cells_read_back, setitem_setitem.
Qed.

Lemma known_read_back (e : dict) : known (read_back e) = true.
Proof. reflexivity. Qed.

(** X11. Starting the program again and saving writes the same file: when
    the list that [load_phonebook] returns from a saved file is saved in
    turn, the file has the same text as before and loads to the same
    list. *)
Theorem reload_and_save_keeps_file (w : world) :
  Forall (fun e => known e = true) (phonebook w) ->
  exists w1 loaded w2,
    save_phonebook w = (Ok tt, w1)
    /\ load_phonebook w1 = (Ok loaded, w1)
    /\ save_phonebook (set_phonebook w1 loaded) = (Ok tt, w2)
    /\ disk w2 = disk w1
    /\ load_phonebook w2 = (Ok loaded, w2).
Proof.
  intros Hknown.
  destruct (save_load w Hknown) as (w1 & Hsave & _ & _ & _ & Hdisk & Hload).
  set (loaded := map read_back (renumber 1 (phonebook w))) in *.
  assert (Hloaded : Forall (fun e => known e = true) (phonebook (set_phonebook w1 loaded))).
  { apply Forall_forall. intros e He. apply in_map_iff in He as (e0 & <- & _).
    apply known_read_back. }
  destruct (save_load _ Hloaded) as (w2 & Hsave2 & _ & _ & _ & Hdisk2 & Hload2).
  cbn [phonebook set_phonebook] in Hdisk2, Hload2.
  assert (Hrows : map (row_cells fieldnames) (renumber 1 loaded)
                  = map (row_cells fieldnames) (renumber 1 (phonebook w)))
    by apply rows_reloaded.
  exists w1, loaded, w2. split; [done|]. split; [done|]. split; [done|]. split.
  - by rewrite Hdisk, Hdisk2, Hrows.
  - apply load_phonebook_written. by rewrite Hdisk2, Hrows.
Qed.

(** X12. [load_phonebook] finds no error in any text: read line by line
    with [newline=''], a file never brings the csv reader to its one error
    (a character after a line end inside a record), so every text gives a
    list, and the world is as before. *)
Theorem load_phonebook_never_raises (w : world) :
  exists pb, load_phonebook w = (Ok pb, w).
Proof. apply load_phonebook_total. Qed.

Lemma setitem_fresh (d : dict) (k : pystr) (v : value) :
  Some k ∉ keys d -> setitem d (Item k v) = d ++ [Item k v].
Proof.
  induction d as [|[k0 v0|cells] d IH]; simpl; intros Hk; [done| |].
  - rewrite not_elem_of_cons in Hk. destruct Hk as [Hne Hk].
    rewrite str_eqb_ne by congruence. by rewrite IH.
  - rewrite not_elem_of_cons in Hk. destruct Hk as [_ Hk]. by rewrite IH.
Qed.

Lemma zip_items (names row : list pystr) (d : dict) :
  NoDup names -> (forall k, k ∈ names -> Some k ∉ keys d) ->
  fold_left (fun d (kv : pystr * pystr) => setitem d (Item kv.1 (VStr kv.2))) (zip names row) d
  = d ++ zip_with (fun k v => Item k (VStr v)) names row.
Proof.
  revert row d. induction names as [|k names IH]; intros row d Hnd Hfresh.
  - simpl. by rewrite app_nil_r.
  - destruct row as [|v row]; [simpl; by rewrite app_nil_r|].
    apply list.NoDup_cons in Hnd as [Hk Hnd]. cbn [zip zip_with fold_left fst snd].
    rewrite setitem_fresh by (apply Hfresh; by left).
    rewrite IH; [by rewrite <- app_assoc|done|].
    intros k' Hk'. unfold keys. rewrite map_app. simpl.
    rewrite not_elem_of_app. split; [apply Hfresh; by right|].
    rewrite not_elem_of_cons. split; [|apply not_elem_of_nil].
    intros [= ->]. done.
Qed.

Lemma DictReader_row_full (names row : list pystr) :
  NoDup names -> length row = length names ->
  DictReader_row names row = zip_with (fun k v => Item k (VStr v)) names row.
Proof.
  intros Hnd Hlen. unfold DictReader_row.
  rewrite Hlen, Nat.ltb_irrefl, drop_all. cbn [fold_left].
  rewrite zip_items; [done|done|]. intros k _. apply not_elem_of_nil.
Qed.

(** X13. [load_phonebook] takes the keys of the records from the first row
    of the file, whatever it holds: for a csv file with a header of distinct
    names and data rows of the same length, record i has exactly the names
    of the header as keys, in that order, with the cells of row i as
    values.  The seven column names of the program play no part. *)
Theorem load_phonebook_any_header (w : world) (names : list pystr)
    (rows : list (list pystr)) :
  names <> [] -> NoDup names ->
  Forall (fun row => length row = length names) rows ->
  disk w = Some (concat (map writer_writerow (names :: rows))) ->
  load_phonebook w
  = (Ok (map (fun row => zip_with (fun k v => Item k (VStr v)) names row) rows), w).
Proof.
  intros Hne Hnd Hrows Hdisk. unfold load_phonebook.
  rewrite Hdisk, csv_reader_writer, bind_Ok. unfold DictReader. do 2 f_equal.
  clear Hdisk. induction Hrows as [|row rows Hrow _ IH]; [done|].
  rewrite filter_cons_True.
  - cbn [map]. by rewrite IH, DictReader_row_full.
  - destruct row; [|done]. by destruct names.
Qed.

(** ** 24. More on add_entry and edit_entry *)

(** X14. When [input_contact_data] returns the empty dict, [add_entry]
    appends nothing and does not save: the list and the file are as
    before. *)
Theorem add_entry_rejected (w w1 : world) :
  input_contact_data w = (Ok [], w1) ->
  add_entry w = (Ok tt, w1) /\ phonebook w1 = phonebook w /\ disk w1 = disk w.
Proof.
  intros Hinput. split.
  - unfold add_entry. by rewrite run_bind, Hinput.
  - pose proof (keeps_store_input_contact_data w) as H. by rewrite Hinput in H.
Qed.

(** X15. [add_entry] does not catch the ValueError of the save: when a
    record of the list has a key outside the seven column names, the call
    ends with that exception, with the new contact already appended to the
    list (without an id) and the file cut down to the header and the rows
    before that record. *)
Theorem add_entry_extra_key_raises (w w1 : world) (cd : dict) (good : list dict)
    (bad : dict) (rest : list dict) :
  phonebook w = good ++ bad :: rest ->
  Forall (fun e => known e = true) good ->
  known bad = false ->
  input_contact_data w = (Ok cd, w1) -> cd <> [] ->
  add_entry w
  = (Raise ExtraFieldsError,
     mkWorld (stdin w1) (stdout w1)
       (Some (concat (map writer_writerow
                (fieldnames :: map (row_cells fieldnames) (renumber 1 good)))))
       (renumber 1 good
          ++ setitem bad (Item K_ID (VInt (Z.of_nat (length good) + 1)))
          :: rest ++ [cd])).
Proof.
  intros Hpb Hgood Hbad Hinput Hcd.
  pose proof (keeps_store_input_contact_data w) as [Hbook _].
  rewrite Hinput in Hbook. simpl in Hbook.
  unfold add_entry. rewrite run_bind, Hinput, (truthy_cons cd Hcd). run.
  erewrite (run_save_phonebook_extra_key _ good bad (rest ++ [cd])); [done| |done|done].
  cbn [phonebook set_phonebook]. change (list item) with dict.
  by rewrite Hbook, Hpb, <- app_assoc.
Qed.

(** X16. [edit_entry] catches that same ValueError: when the list after the
    merge has a record with a key outside the seven column names, the call
    ends normally after printing the report of the error; the merge stays
    in memory and the file is cut down to the header and the rows before
    that record. *)
Theorem edit_entry_reports_save_error (w w1 : world) (entry_idx : Z) (entry cd : dict)
    (good : list dict) (bad : dict) (rest : list dict) :
  (1 <= entry_idx <= Z.of_nat (length (phonebook w)))%Z ->
  phonebook w !! Z.to_nat (entry_idx - 1) = Some entry ->
  input_contact_data (shown w entry) = (Ok cd, w1) -> cd <> [] ->
  alter (fun e => update e cd) (Z.to_nat (entry_idx - 1)) (phonebook w)
    = good ++ bad :: rest ->
  Forall (fun e => known e = true) good ->
  known bad = false ->
  edit_entry entry_idx w
  = (Ok tt,
     mkWorld (stdin w1) (stdout w1 ++ [Report ExtraFieldsError])
       (Some (concat (map writer_writerow
                (fieldnames :: map (row_cells fieldnames) (renumber 1 good)))))
       (renumber 1 good
          ++ setitem bad (Item K_ID (VInt (Z.of_nat (length good) + 1))) :: rest)).
Proof.
  intros Hrange Hentry Hinput Hcd Hmerged Hgood Hbad.
  pose proof (keeps_store_input_contact_data (shown w entry)) as [Hbook _].
  rewrite Hinput in Hbook. simpl in Hbook.
  unfold edit_entry, try_except_ValueError. run.
  replace ((0 <=? entry_idx - 1)%Z && (entry_idx - 1 <? Z.of_nat (length (phonebook w)))%Z)
    with true by (symmetry; apply andb_true_intro; split;
                  [apply Z.leb_le | apply Z.ltb_lt]; lia).
  rewrite Hentry. run. rewrite shown_prints, Hinput, (truthy_cons cd Hcd). run.
  erewrite (run_save_phonebook_extra_key _ good bad rest); [done| |done|done].
  cbn [phonebook set_phonebook]. by rewrite Hbook.
Qed.

(** ** 25. More on display_page *)

(** X17. The pages of one size follow one another without gap or overlap:
    for a size that is not negative, the pages 1 to n put end to end are
    the first n times size entries of the list, hence the whole list once
    n times size reaches its length. *)
Theorem pages_cover_the_list (pb : list dict) (entries_per_page : Z) (n : nat) :
  (0 <= entries_per_page)%Z ->
  concat (map (fun k => page_entries (Z.of_nat k) entries_per_page pb) (seq 1 n))
  = take (n * Z.to_nat entries_per_page) pb
  /\ ((length pb <= n * Z.to_nat entries_per_page)%nat ->
      concat (map (fun k => page_entries (Z.of_nat k) entries_per_page pb) (seq 1 n)) = pb).
Proof.
  intros Hsize.
  assert (Hall : concat (map (fun k => page_entries (Z.of_nat k) entries_per_page pb)
                        (seq 1 n))
                 = take (n * Z.to_nat entries_per_page) pb).
  { induction n as [|n IH]; [done|].
    rewrite seq_S, map_app, concat_app, IH. cbn [map concat]. rewrite app_nil_r.
    unfold page_entries. rewrite py_slice_forward; [|nia|lia].
    replace (Z.to_nat ((Z.of_nat (1 + n) - 1) * entries_per_page))
      with (n * Z.to_nat entries_per_page)%nat by nia.
    rewrite take_take_drop. f_equal. lia. }
  split; [done|]. intros Hlen. rewrite Hall. by apply take_ge.
Qed.

(** X18. Below page 1 nothing is clamped.  Page 0 prints nothing, whatever
    the size.  For a page number -q below 0 and a size of at least 1 the
    negative bounds count from the end of the list: the page is the window
    of that size which ends q times size entries before the end. *)
Theorem page_entries_below_one (pb : list dict) (entries_per_page : Z) :
  page_entries 0 entries_per_page pb = []
  /\ forall q : nat, (1 <= q)%nat -> (1 <= entries_per_page)%Z ->
       let size := Z.to_nat entries_per_page in
       page_entries (- Z.of_nat q) entries_per_page pb
       = drop (length pb - (q + 1) * size) (take (length pb - q * size) pb).
Proof.
  split.
  - unfold page_entries, py_slice, slice_index.
    replace ((0 - 1) * entries_per_page + entries_per_page)%Z with 0%Z by lia.
    change (0 <? 0)%Z with false. cbv iota.
    replace (Z.to_nat _) with 0%nat; [reflexivity|].
    destruct (Z.ltb_spec ((0 - 1) * entries_per_page) 0); lia.
  - intros q Hq Hsize size. unfold page_entries, py_slice, slice_index.
    destruct (Z.ltb_spec ((- Z.of_nat q - 1) * entries_per_page) 0); [|nia].
    destruct (Z.ltb_spec ((- Z.of_nat q - 1) * entries_per_page + entries_per_page) 0);
      [|nia].
    rewrite take_drop_commute. f_equal; [nia|]. f_equal. subst size. nia.
Qed.

(** ** 26. More on search_entries *)

Lemma search_term_loop_blanks (blanks lines : list pystr) (out : list printed) :
  Forall (fun line => strip (lower line) = []) blanks ->
  search_term_loop (blanks ++ lines) out
  = search_term_loop lines
      (out ++ concat (map (fun _ => [Prompt ASK_SEARCH; Text MSG_BAD_SEARCH]) blanks)).
Proof.
  intros Hblanks. revert out. induction Hblanks as [|line blanks Hline _ IH]; intros out.
  - simpl. by rewrite app_nil_r.
  - cbn [app map concat]. rewrite (search_term_loop_blank _ _ _ Hline), IH.
    by rewrite <- app_assoc.
Qed.

Lemma run_ask_search_term (w : world) (blanks : list pystr) (line : pystr)
    (rest : list pystr) :
  stdin w = blanks ++ line :: rest ->
  Forall (fun line => strip (lower line) = []) blanks ->
  strip (lower line) <> [] ->
  ask_search_term w
  = (Ok (lower line),
     set_stdin
       (set_stdout w
          (stdout w
             ++ concat (map (fun _ => [Prompt ASK_SEARCH; Text MSG_BAD_SEARCH]) blanks)
             ++ [Prompt ASK_SEARCH]))
       rest).
Proof.
  intros Hstdin Hblanks Hline. unfold ask_search_term.
  rewrite Hstdin, (search_term_loop_blanks _ _ _ Hblanks). cbn [search_term_loop].
  rewrite (truthy_cons _ Hline). cbn [negb]. by rewrite <- app_assoc.
Qed.

Lemma run_search_entries (w w1 : world) (search_term : pystr) :
  ask_search_term w = (Ok search_term, w1) ->
  search_entries w
  = match search_results search_term (phonebook w1) with
    | Ok results =>
        (Ok tt,
         set_stdout w1
           (stdout w1 ++ (if truthy results then Text MSG_RESULTS :: map Repr results
                          else [Text MSG_NOTHING])))
    | Raise e => (Raise e, w1)
    end.
Proof.
  intros Hask. unfold search_entries. rewrite run_bind, Hask. run. unfold lift.
  destruct (search_results search_term (phonebook w1)) as [results|e]; [|done].
  destruct results as [|r results]; cbn [truthy]; run; [done|].
  unfold print_all, set_stdout. simpl. by rewrite <- app_assoc.
Qed.

(** X19. On a list whose values are all strings, [search_entries] asks
    again after every blank line, then takes the first line that is not
    blank, lowered but not trimmed, and prints the records of which some
    value, lowered, contains it, in the order of the list, or the
    nothing-found line when there is none; the list and the file are
    left as they were. *)
Theorem search_entries_filters (w : world) (blanks : list pystr) (line : pystr)
    (rest : list pystr) :
  stdin w = blanks ++ line :: rest ->
  Forall (fun line => strip (lower line) = []) blanks ->
  strip (lower line) <> [] ->
  Forall (fun e => forallb is_str e = true) (phonebook w) ->
  let results := List.filter (entry_matches (lower line)) (phonebook w) in
  search_entries w
  = (Ok tt,
     mkWorld rest
       (stdout w
          ++ concat (map (fun _ => [Prompt ASK_SEARCH; Text MSG_BAD_SEARCH]) blanks)
          ++ Prompt ASK_SEARCH
          :: (if truthy results then Text MSG_RESULTS :: map Repr results
              else [Text MSG_NOTHING]))
       (disk w) (phonebook w)).
Proof.
  intros Hstdin Hblanks Hline Hstr results.
  rewrite (run_search_entries _ _ _ (run_ask_search_term w _ _ _ Hstdin Hblanks Hline)).
  cbn [phonebook set_stdin set_stdout]. rewrite (search_results_strings _ _ Hstr).
  fold results. unfold set_stdin, set_stdout. cbn [stdin stdout disk phonebook].
  by rewrite <- !app_assoc.
Qed.

Lemma any_value_matches_int_id (search_term : pystr) (e : dict) :
  int_id e ->
  any_value_matches search_term e = Ok true
  \/ any_value_matches search_term e = Raise AttributeError.
Proof.
  intros [n Hn]. induction e as [|[k [m|s|]|cells] e IH]; try done; try (by right).
  simpl in *. destruct (contains (lower s) search_term); [by left|].
  apply IH. by destruct (str_eqb k K_ID).
Qed.

Lemma search_results_int_ids (search_term : pystr) (pb : list dict) :
  Forall int_id pb ->
  search_results search_term pb = Ok pb
  \/ search_results search_term pb = Raise AttributeError.
Proof.
  induction 1 as [|e pb He _ [IH | IH]]; [by left| |].
  - cbn [search_results].
    destruct (any_value_matches_int_id search_term e He) as [-> | ->]; [|by right].
    rewrite bind_Ok, IH. by left.
  - cbn [search_results].
    destruct (any_value_matches_int_id search_term e He) as [-> | ->]; [|by right].
    rewrite bind_Ok, IH. by right.
Qed.

Lemma int_id_renumber (idx : Z) (pb : list dict) : Forall int_id (renumber idx pb).
Proof.
  revert idx. induction pb as [|e pb IH]; intros idx; simpl; constructor; [|apply IH].
  eexists. apply get_setitem_eq.
Qed.

(** X20. After a save that ended well the search no longer filters.  With
    the integer ids in the records, a search for any text either raises
    AttributeError or prints every record of the list: a record that does
    not match is never passed over, and the nothing-found line is never
    printed for a list that is not empty. *)
Theorem search_entries_after_save (w w1 : world) (line : pystr) (rest : list pystr) :
  save_phonebook w = (Ok tt, w1) ->
  stdin w1 = line :: rest -> strip (lower line) <> [] ->
  phonebook w1 <> [] ->
  let asked := set_stdin (set_stdout w1 (stdout w1 ++ [Prompt ASK_SEARCH])) rest in
  search_entries w1 = (Raise AttributeError, asked)
  \/ search_entries w1
     = (Ok tt,
        set_stdout asked (stdout asked ++ Text MSG_RESULTS :: map Repr (phonebook w1))).
Proof.
  intros Hsave Hstdin Hline Hbook asked.
  assert (Hknown : Forall (fun e => known e = true) (phonebook w)).
  { apply save_phonebook_ok_known. by rewrite Hsave. }
  rewrite (save_phonebook_known w Hknown) in Hsave. injection Hsave as Hw1.
  assert (Hids : Forall int_id (phonebook w1)).
  { rewrite <- Hw1. apply int_id_renumber. }
  pose proof (run_ask_search_term w1 [] line rest Hstdin (Forall_nil _) Hline) as Hask.
  cbn [map concat app] in Hask.
  rewrite (run_search_entries _ _ _ Hask). fold asked.
  change (phonebook asked) with (phonebook w1).
  destruct (search_results_int_ids (lower line) _ Hids) as [-> | ->]; [right|by left].
  by destruct (phonebook w1).
Qed.

Lemma search_results_id_first (search_term : pystr) (n : Z) (fields : dict)
    (others : list dict) :
  search_results search_term ((Item K_ID (VInt n) :: fields) :: others)
  = Raise AttributeError.
Proof. reflexivity. Qed.

(** X21. A phone book that was loaded from the file of the program and
    then saved cannot be searched.  Loaded, the records have the id first
    and as a string, and the search ends well; after the save that every
    addition and every edit makes, the first value that the search asks
    for its lowered text is the integer id of the first record, and
    [search_entries] raises AttributeError whatever the text. *)
Theorem search_entries_after_reload_raises (w : world) (line : pystr) (rest : list pystr) :
  Forall (fun e => known e = true) (phonebook w) ->
  phonebook w <> [] ->
  stdin w = line :: rest -> strip (lower line) <> [] ->
  exists w1 loaded w2,
    save_phonebook w = (Ok tt, w1)
    /\ load_phonebook w1 = (Ok loaded, w1)
    /\ (search_entries (set_phonebook w1 loaded)).1 = Ok tt
    /\ save_phonebook (set_phonebook w1 loaded) = (Ok tt, w2)
    /\ search_entries w2
       = (Raise AttributeError,
          set_stdin (set_stdout w2 (stdout w2 ++ [Prompt ASK_SEARCH])) rest).
Proof.
  intros Hknown Hbook Hstdin Hline.
  destruct (save_load w Hknown) as (w1 & Hsave & _ & Hstdin1 & _ & _ & Hload).
  set (loaded := map read_back (renumber 1 (phonebook w))) in *.
  assert (Hloaded : Forall (fun e => known e = true) (phonebook (set_phonebook w1 loaded))).
  { apply Forall_forall. intros e He. apply in_map_iff in He as (e0 & <- & _).
    apply known_read_back. }
  destruct (save_load _ Hloaded) as (w2 & Hsave2 & Hbook2 & Hstdin2 & _ & _ & _).
  cbn [phonebook stdin set_phonebook] in Hbook2, Hstdin2.
  exists w1, loaded, w2. split; [done|]. split; [done|]. split; [|split; [done|]].
  - assert (Hask := run_ask_search_term (set_phonebook w1 loaded) [] line rest).
    cbn [stdin set_phonebook] in Hask. rewrite Hstdin1 in Hask.
    specialize (Hask Hstdin (Forall_nil _) Hline).
    rewrite (run_search_entries _ _ _ Hask).
    cbn [phonebook set_stdin set_stdout set_phonebook].
    rewrite search_results_strings; [done|].
    apply Forall_forall. intros e He. apply in_map_iff in He as (e0 & <- & _).
    apply read_back_strings.
  - assert (Hask := run_ask_search_term w2 [] line rest).
    rewrite Hstdin2, Hstdin1 in Hask. specialize (Hask Hstdin (Forall_nil _) Hline).
    cbn [map concat app] in Hask.
    rewrite (run_search_entries _ _ _ Hask).
    cbn [phonebook set_stdin set_stdout]. rewrite Hbook2.
    subst loaded. destruct (phonebook w) as [|e pb]; [done|].
    cbn [renumber map]. unfold read_back at 1. cbn [map fieldnames setitem].
    change (same_key (Item K_ID ?v) (Item K_ID ?v')) with true. cbv iota.
    by rewrite search_results_id_first.
Qed.

(** ** 27. The exceptions of add_entry and edit_entry *)

Lemma raises_only_ret {A} (a : A) (P : exn -> world -> Prop) :
  raises_only (mret a : M A) P.
Proof. by intros w e w'. Qed.

Lemma raises_only_bind {A B} (m : M A) (k : A -> M B) (P : exn -> world -> Prop) :
  raises_only m P -> (forall a, raises_only (k a) P) -> raises_only (m ≫= k) P.
Proof.
  intros Hm Hk w e w'. rewrite run_bind. specialize (Hm w).
  destruct (m w) as [[a|e1] w1]; [apply Hk|]. intros [= <- <-]. by apply Hm.
Qed.

Lemma raises_only_try {A} (body : M A) (handler : exn -> M A)
    (Q P : exn -> world -> Prop) :
  raises_only body Q ->
  (forall e w, Q e w -> is_ValueError e = false -> P e w) ->
  (forall e, raises_only (handler e) P) ->
  raises_only (try_except_ValueError body handler) P.
Proof.
  intros Hbody HQ Hhandler w e w'. unfold try_except_ValueError. specialize (Hbody w).
  destruct (body w) as [[a|e1] w1]; [done|].
  destruct (is_ValueError e1) eqn:He1; [apply Hhandler|].
  intros [= <- <-]. apply HQ; [by apply Hbody|done].
Qed.

Lemma raises_only_impl {A} (m : M A) (P Q : exn -> world -> Prop) :
  raises_only m P -> (forall e w, P e w -> Q e w) -> raises_only m Q.
Proof. intros Hm HPQ w e w' Hrun. apply HPQ. by eapply Hm. Qed.

Lemma raises_only_print (x : printed) (P : exn -> world -> Prop) : raises_only (print x) P.
Proof. by intros w e w'. Qed.


Lemma raises_only_get_phonebook (P : exn -> world -> Prop) : raises_only get_phonebook P.
Proof. by intros w e w'. Qed.

Lemma raises_only_modify_phonebook (f : list dict -> list dict)
    (P : exn -> world -> Prop) :
  raises_only (modify_phonebook f) P.
Proof. by intros w e w'. Qed.

Lemma raises_only_input (prompt : pystr) : raises_only (input prompt) at_eof.
Proof.
  intros w e w'. unfold input. destruct (stdin w) as [|line rest] eqn:Hstdin; [|done].
  intros [= <- <-]. by split.
Qed.

Lemma raises_only_ask_string (prompt field_name : pystr) :
  raises_only (ask_string prompt field_name)
    (fun e w => at_eof e w \/ is_ValueError e = true).
Proof.
  apply raises_only_bind.
  - eapply raises_only_impl; [apply raises_only_input|]. intros e w H. by left.
  - intros line w e w'. unfold lift, validate_string_input.
    destruct (truthy (strip line)); [done|]. intros [= <- _]. by right.
Qed.

Lemma phone_loop_raises (prompt : pystr) (lines : list pystr) (out : list printed)
    (e : exn) (lines' : list pystr) (out' : list printed) :
  phone_loop prompt lines out = (Raise e, lines', out') -> e = EOFError /\ lines' = [].
Proof.
  revert out. induction lines as [|line lines IH]; intros out; simpl.
  - by intros [= <- <- _].
  - destruct (validate_phone_number line); [done|apply IH].
Qed.

Lemma raises_only_ask_phone (prompt : pystr) : raises_only (ask_phone prompt) at_eof.
Proof.
  intros w e w'. unfold ask_phone.
  destruct (phone_loop prompt (stdin w) (stdout w)) as [[r lines] out] eqn:Hloop.
  intros [= -> <-]. by apply phone_loop_raises in Hloop.
Qed.

Lemma raises_only_input_contact_data : raises_only input_contact_data at_eof.
Proof.
  unfold input_contact_data.
  apply (raises_only_try _ _ (fun e w => at_eof e w \/ is_ValueError e = true)).
  - repeat (apply raises_only_bind;
            [first [ apply raises_only_ask_string
                   | eapply raises_only_impl;
                     [apply raises_only_ask_phone | intros e w H; by left] ]
            | intros ?]).
    apply raises_only_ret.
  - intros e w [H | H] He; [done|congruence].
  - intros e. apply raises_only_bind; [apply raises_only_print|].
    intros _. apply raises_only_ret.
Qed.

Lemma raises_only_save_phonebook :
  raises_only save_phonebook (fun e _ => e = ExtraFieldsError).
Proof.
  intros w e w'. unfold save_phonebook.
  pose proof (save_entries_exn 1 (phonebook w)) as Hexn.
  destruct (save_entries 1 (phonebook w)) as [[pb text] [e1|]]; [|done].
  intros [= <- _]. by apply Hexn.
Qed.


Lemma raises_only_edit_entry (entry_idx : Z) : raises_only (edit_entry entry_idx) at_eof.
Proof.
  unfold edit_entry.
  apply (raises_only_try _ _ (fun e w => at_eof e w \/ is_ValueError e = true)).
  - apply raises_only_bind; [apply raises_only_get_phonebook|]. intros pb.
    destruct ((0 <=? entry_idx - 1)%Z && (entry_idx - 1 <? Z.of_nat (length pb))%Z)
      eqn:Hin; [|apply raises_only_print].
    apply andb_prop in Hin as [H1 H2]. apply Z.leb_le in H1. apply Z.ltb_lt in H2.
    destruct (lookup_lt_is_Some_2 pb (Z.to_nat (entry_idx - 1))) as [entry ->]; [lia|].
    apply raises_only_bind; [apply raises_only_print|]. intros _.
    apply raises_only_bind; [apply raises_only_print|]. intros _.
    apply raises_only_bind.
    { eapply raises_only_impl; [apply raises_only_input_contact_data|].
      intros e w H. by left. }
    intros cd. destruct (truthy cd); [|apply raises_only_ret].
    apply raises_only_bind; [apply raises_only_modify_phonebook|]. intros _.
    apply raises_only_bind; [|intros _; apply raises_only_print].
    eapply raises_only_impl; [apply raises_only_save_phonebook|].
    intros e w ->. by right.
  - intros e w [H | H] He; [done|congruence].
  - intros e. apply raises_only_print.
Qed.

(** X22. [edit_entry] lets one exception out, EOFError, and only when the
    input has run out while the contact was typed in.  The ValueError of a
    blank text and the ValueError of the csv writer are caught, and the
    index that has passed the range check is always in the list. *)
Theorem edit_entry_raises_only_eof (w w' : world) (entry_idx : Z) (e : exn) :
  edit_entry entry_idx w = (Raise e, w') -> e = EOFError /\ stdin w' = [].
Proof. apply raises_only_edit_entry. Qed.


(** ** 28. main: the input is read forward, the loop ends *)

Lemma reads_forward_same {A} (m : M A) :
  (forall w, stdin (m w).2 = stdin w) -> reads_forward m.
Proof. intros H w. by rewrite H. Qed.

Lemma reads_forward_ret {A} (a : A) : reads_forward (mret a : M A).
Proof. by apply reads_forward_same. Qed.

Lemma reads_forward_bind {A B} (m : M A) (k : A -> M B) :
  reads_forward m -> (forall a, reads_forward (k a)) -> reads_forward (m ≫= k).
Proof.
  intros Hm Hk w. rewrite run_bind. specialize (Hm w).
  destruct (m w) as [[a|e] w1]; simpl in *; [|done].
  etrans; [apply Hk|done].
Qed.

Lemma reads_forward_try {A} (body : M A) (handler : exn -> M A) :
  reads_forward body -> (forall e, reads_forward (handler e)) ->
  reads_forward (try_except_ValueError body handler).
Proof.
  intros Hm Hk w. unfold try_except_ValueError. specialize (Hm w).
  destruct (body w) as [[a|e] w1]; simpl in *; [done|].
  destruct (is_ValueError e); [|done].
  etrans; [apply Hk|done].
Qed.

Lemma reads_forward_print (x : printed) : reads_forward (print x).
Proof. by apply reads_forward_same. Qed.

Lemma reads_forward_print_all (xs : list printed) : reads_forward (print_all xs).
Proof. by apply reads_forward_same. Qed.

Lemma reads_forward_get_phonebook : reads_forward get_phonebook.
Proof. by apply reads_forward_same. Qed.

Lemma reads_forward_modify_phonebook (f : list dict -> list dict) :
  reads_forward (modify_phonebook f).
Proof. by apply reads_forward_same. Qed.

Lemma reads_forward_lift {A} (r : result A) : reads_forward (lift r).
Proof. by apply reads_forward_same. Qed.

Lemma reads_forward_raise {A} (e : exn) : reads_forward (raise e : M A).
Proof. by apply reads_forward_same. Qed.

Lemma reads_forward_save_phonebook : reads_forward save_phonebook.
Proof.
  apply reads_forward_same. intros w. unfold save_phonebook.
  by destruct (save_entries 1 (phonebook w)) as [[pb text] r].
Qed.

Lemma reads_forward_input (prompt : pystr) : reads_forward (input prompt).
Proof.
  intros w. unfold input. destruct (stdin w) as [|line rest] eqn:Hstdin; simpl.
  - by rewrite Hstdin.
  - by apply suffix_cons_r.
Qed.

Lemma phone_loop_suffix (prompt : pystr) (lines : list pystr) (out : list printed) :
  (phone_loop prompt lines out).1.2 `suffix_of` lines.
Proof.
  revert out. induction lines as [|line lines IH]; intros out; simpl; [done|].
  destruct (validate_phone_number line); simpl.
  - by apply suffix_cons_r.
  - apply suffix_cons_r, IH.
Qed.

Lemma reads_forward_ask_phone (prompt : pystr) : reads_forward (ask_phone prompt).
Proof.
  intros w. unfold ask_phone.
  pose proof (phone_loop_suffix prompt (stdin w) (stdout w)) as H.
  by destruct (phone_loop prompt (stdin w) (stdout w)) as [[r lines] out].
Qed.

Lemma reads_forward_ask_string (prompt field_name : pystr) :
  reads_forward (ask_string prompt field_name).
Proof.
  apply reads_forward_bind; [apply reads_forward_input | intros; apply reads_forward_lift].
Qed.

Lemma reads_forward_input_contact_data : reads_forward input_contact_data.
Proof.
  unfold input_contact_data. apply reads_forward_try.
  - repeat (apply reads_forward_bind;
            [first [apply reads_forward_ask_string | apply reads_forward_ask_phone]
            | intros ?]).
    apply reads_forward_ret.
  - intros e. apply reads_forward_bind; [apply reads_forward_print|].
    intros; apply reads_forward_ret.
Qed.

Lemma reads_forward_add_entry : reads_forward add_entry.
Proof.
  unfold add_entry. apply reads_forward_bind; [apply reads_forward_input_contact_data|].
  intros cd. destruct (truthy cd); [|apply reads_forward_ret].
  apply reads_forward_bind; [apply reads_forward_modify_phonebook|]. intros _.
  apply reads_forward_bind; [apply reads_forward_save_phonebook|]. intros _.
  apply reads_forward_print.
Qed.

Lemma reads_forward_edit_entry (entry_idx : Z) : reads_forward (edit_entry entry_idx).
Proof.
  unfold edit_entry. apply reads_forward_try; [|intros e; apply reads_forward_print].
  apply reads_forward_bind; [apply reads_forward_get_phonebook|]. intros pb.
  destruct (_ && _); [|apply reads_forward_print].
  destruct (pb !! _) as [entry|]; [|apply reads_forward_raise].
  apply reads_forward_bind; [apply reads_forward_print|]. intros _.
  apply reads_forward_bind; [apply reads_forward_print|]. intros _.
  apply reads_forward_bind; [apply reads_forward_input_contact_data|].
  intros cd. destruct (truthy cd); [|apply reads_forward_ret].
  apply reads_forward_bind; [apply reads_forward_modify_phonebook|]. intros _.
  apply reads_forward_bind; [apply reads_forward_save_phonebook|]. intros _.
  apply reads_forward_print.
Qed.

Lemma search_term_loop_suffix (lines : list pystr) (out : list printed) :
  (search_term_loop lines out).1.2 `suffix_of` lines.
Proof.
  revert out. induction lines as [|line lines IH]; intros out; simpl; [done|].
  destruct (negb _); simpl.
  - apply suffix_cons_r, IH.
  - by apply suffix_cons_r.
Qed.

Lemma reads_forward_ask_search_term : reads_forward ask_search_term.
Proof.
  intros w. unfold ask_search_term.
  pose proof (search_term_loop_suffix (stdin w) (stdout w)) as H.
  by destruct (search_term_loop (stdin w) (stdout w)) as [[r lines] out].
Qed.

Lemma reads_forward_search_entries : reads_forward search_entries.
Proof.
  unfold search_entries. apply reads_forward_bind; [apply reads_forward_ask_search_term|].
  intros search_term. apply reads_forward_bind; [apply reads_forward_get_phonebook|].
  intros pb. apply reads_forward_bind; [apply reads_forward_lift|].
  intros results. destruct (truthy results); [|apply reads_forward_print].
  apply reads_forward_bind; [apply reads_forward_print|]. intros _.
  apply reads_forward_print_all.
Qed.

Lemma reads_forward_display_page (page_num entries_per_page : Z) :
  reads_forward (display_page page_num entries_per_page).
Proof.
  apply reads_forward_bind; [apply reads_forward_get_phonebook|].
  intros pb. apply reads_forward_print_all.
Qed.

Lemma reads_forward_input_int (prompt : pystr) : reads_forward (input_int prompt).
Proof.
  apply reads_forward_bind; [apply reads_forward_input|].
  intros line. destruct (py_int line); [apply reads_forward_ret|apply reads_forward_raise].
Qed.

Lemma reads_forward_main_choice (choice : pystr) : reads_forward (main_choice choice).
Proof.
  unfold main_choice.
  repeat match goal with |- context [if ?b then _ else _] => destruct b end.
  - apply reads_forward_bind; [apply reads_forward_input_int|]. intros page_num.
    apply reads_forward_bind; [apply reads_forward_input_int|]. intros entries_per_page.
    apply reads_forward_bind; [apply reads_forward_display_page|]. intros _.
    apply reads_forward_ret.
  - apply reads_forward_bind; [apply reads_forward_add_entry|]. intros _.
    apply reads_forward_ret.
  - apply reads_forward_bind; [apply reads_forward_input_int|]. intros entry_idx.
    apply reads_forward_bind; [apply reads_forward_edit_entry|]. intros _.
    apply reads_forward_ret.
  - apply reads_forward_bind; [apply reads_forward_search_entries|]. intros _.
    apply reads_forward_ret.
  - apply reads_forward_ret.
  - apply reads_forward_bind; [apply reads_forward_print|]. intros _.
    apply reads_forward_ret.
Qed.

Lemma run_print_menu (w : world) : print_menu w = (Ok tt, set_stdout w (stdout w ++ menu)).
Proof.
  unfold print_menu. run. unfold set_stdout. simpl. by rewrite <- !app_assoc.
Qed.

(** A turn with a line to read: the menu, the prompt, then the choice. *)
Lemma run_main_turn (w : world) (choice : pystr) (rest : list pystr) :
  stdin w = choice :: rest ->
  main_turn w
  = main_choice choice
      (mkWorld rest (stdout w ++ menu ++ [Prompt ASK_CHOICE]) (disk w) (phonebook w)).
Proof.
  intros Hstdin. unfold main_turn. rewrite run_bind, run_print_menu, run_bind.
  unfold input. cbn [stdin set_stdout]. rewrite Hstdin.
  unfold set_stdin, set_stdout. cbn [stdin stdout disk phonebook].
  by rewrite <- app_assoc.
Qed.

(** A turn with no line left. *)
Lemma run_main_turn_eof (w : world) :
  stdin w = [] ->
  main_turn w
  = (Raise EOFError, set_stdout w (stdout w ++ menu ++ [Prompt ASK_CHOICE])).
Proof.
  intros Hstdin. unfold main_turn. rewrite run_bind, run_print_menu, run_bind.
  unfold input. cbn [stdin set_stdout]. rewrite Hstdin.
  unfold set_stdout. cbn [stdin stdout disk phonebook]. by rewrite <- app_assoc.
Qed.

Lemma main_choice_break (choice : pystr) (w w' : world) :
  main_choice choice w = (Ok false, w') -> choice = CHOICE_0 /\ w' = w.
Proof.
  unfold main_choice.
  repeat match goal with
         | |- context [if str_eqb ?a ?b then _ else _] => destruct (str_eqb a b) eqn:?
         end;
    try (rewrite run_bind;
         match goal with |- context [match ?m with _ => _ end] => destruct m as [[?|?] ?] end;
         try rewrite run_bind;
         repeat match goal with
                | |- context [match ?m with _ => _ end] => destruct m as [[?|?] ?]
                end;
         by intros [= ]).
  intros [= <-]. split; [by apply str_eqb_eq|done].
Qed.

(** Every turn that does not raise has read the line of the choice, and
    what it has read it has taken from the front. *)
Lemma main_turn_consumes (w w' : world) (b : bool) :
  main_turn w = (Ok b, w') ->
  exists choice used,
    stdin w = choice :: used ++ stdin w'
    /\ (b = false -> choice = CHOICE_0 /\ used = []).
Proof.
  destruct (stdin w) as [|choice rest] eqn:Hstdin.
  { by rewrite (run_main_turn_eof w Hstdin). }
  rewrite (run_main_turn w _ _ Hstdin). intros Hrun.
  pose proof (reads_forward_main_choice choice
                (mkWorld rest (stdout w ++ menu ++ [Prompt ASK_CHOICE]) (disk w)
                   (phonebook w))) as [used Hused].
  rewrite Hrun in Hused. cbn [snd stdin] in Hused.
  exists choice, used. split; [by rewrite Hused|].
  intros ->. apply main_choice_break in Hrun as [-> ->]. split; [done|].
  cbn [stdin] in Hused. apply (f_equal length) in Hused.
  rewrite length_app in Hused. destruct used; [done|simpl in Hused; lia].
Qed.

Lemma main_loop_enough (fuel : nat) (w : world) :
  (length (stdin w) < fuel)%nat -> exists r w', main_loop fuel w = Some (r, w').
Proof.
  revert w. induction fuel as [|fuel IH]; intros w Hlen; [lia|].
  cbn [main_loop]. destruct (main_turn w) as [[[|]|e] w1] eqn:Hturn; [|by eexists _, _..].
  apply IH. apply main_turn_consumes in Hturn as (choice & used & Hused & _).
  rewrite Hused in Hlen. cbn [length] in Hlen. rewrite length_app in Hlen. lia.
Qed.

Lemma main_loop_stable (fuel fuel' : nat) (w : world) (r : result unit * world) :
  main_loop fuel w = Some r -> (fuel <= fuel')%nat -> main_loop fuel' w = Some r.
Proof.
  revert fuel' w. induction fuel as [|fuel IH]; intros fuel' w; [done|].
  intros Hrun Hle. destruct fuel' as [|fuel']; [lia|].
  cbn [main_loop] in *. destruct (main_turn w) as [[[|]|e] w1]; [|done..].
  apply (IH _ _ Hrun). lia.
Qed.

(** X24. [main] always comes to an end, whatever the file and whatever is
    typed: every turn of the loop reads at least the line of the choice, so
    after at most one turn more than there are lines the program has left
    the loop by the choice 0 or by an exception; running the loop for
    longer gives the same outcome. *)
Theorem main_ends (w : world) :
  (exists r w', main w = Some (r, w'))
  /\ forall fuel, (length (stdin w) < fuel)%nat -> main_with fuel w = main w.
Proof.
  unfold main, main_with. destruct (load_phonebook_total w) as [pb ->].
  destruct (main_loop_enough (S (length (stdin w))) (set_phonebook w pb))
    as (r & w' & Hrun); [simpl; lia|].
  split; [by eexists _, _|].
  intros fuel Hfuel. rewrite Hrun. apply (main_loop_stable _ _ _ _ Hrun). lia.
Qed.

Lemma main_loop_break (fuel : nat) (w w' : world) :
  main_loop fuel w = Some (Ok tt, w') ->
  exists used, stdin w = used ++ CHOICE_0 :: stdin w'.
Proof.
  revert w. induction fuel as [|fuel IH]; intros w; [done|].
  cbn [main_loop]. destruct (main_turn w) as [[[|]|e] w1] eqn:Hturn; [| |done].
  - intros Hrun. apply IH in Hrun as [used' Hused'].
    apply main_turn_consumes in Hturn as (choice & used & Hused & _).
    exists (choice :: used ++ used'). rewrite Hused, Hused'. simpl.
    by rewrite <- app_assoc.
  - intros [= <-]. apply main_turn_consumes in Hturn as (choice & used & Hused & Hbreak).
    destruct (Hbreak eq_refl) as [-> ->]. by exists [].
Qed.

(** X25. [main] returns normally only by the choice 0: when it has
    returned, the last line it read is 0, read as a choice, and the lines
    typed after it are left unread. *)
Theorem main_returns_after_zero (w w' : world) :
  main w = Some (Ok tt, w') -> exists used, stdin w = used ++ CHOICE_0 :: stdin w'.
Proof.
  unfold main, main_with. destruct (load_phonebook_total w) as [pb ->].
  intros Hrun. by apply main_loop_break in Hrun.
Qed.

(** ** 29. main: how it ends, and sessions *)










Lemma main_loop_continue (fuel : nat) (w w' : world) :
  main_turn w = (Ok true, w') -> main_loop (S fuel) w = main_loop fuel w'.
Proof. intros H. cbn [main_loop]. by rewrite H. Qed.

Lemma main_loop_exit (fuel : nat) (w w' : world) :
  main_turn w = (Ok false, w') -> main_loop (S fuel) w = Some (Ok tt, w').
Proof. intros H. cbn [main_loop]. by rewrite H. Qed.

Lemma main_loop_raise (fuel : nat) (w w' : world) (e : exn) :
  main_turn w = (Raise e, w') -> main_loop (S fuel) w = Some (Raise e, w').
Proof. intros H. cbn [main_loop]. by rewrite H. Qed.

Lemma run_main_choice_unknown (choice : pystr) (w : world) :
  choice ∉ choices ->
  main_choice choice w = (Ok true, set_stdout w (stdout w ++ [Text MSG_BAD_CHOICE])).
Proof.
  intros Hchoice. unfold main_choice.
  rewrite !str_eqb_ne; [done|..]; intros ->; apply Hchoice; unfold choices;
    repeat constructor.
Qed.

Lemma main_loop_unknown (junk tail : list pystr) (fuel : nat) (w : world) :
  Forall (fun choice => choice ∉ choices) junk ->
  stdin w = junk ++ tail ->
  main_loop (length junk + fuel) w
  = main_loop fuel
      (mkWorld tail
         (stdout w
            ++ concat (map (fun _ => menu ++ [Prompt ASK_CHOICE; Text MSG_BAD_CHOICE]) junk))
         (disk w) (phonebook w)).
Proof.
  intros Hjunk. revert w. induction Hjunk as [|choice junk Hchoice _ IH]; intros w Hstdin.
  - simpl in *. rewrite app_nil_r, <- Hstdin. by destruct w.
  - cbn [length Nat.add app] in *.
    erewrite main_loop_continue;
      [|by rewrite (run_main_turn w _ _ Hstdin), (run_main_choice_unknown _ _ Hchoice)].
    rewrite IH by done. unfold set_stdout. cbn [stdin stdout disk phonebook map concat].
    by rewrite <- !app_assoc.
Qed.

(** X27. Choices that the menu does not know change nothing: each prints
    the menu, the prompt and the bad-choice line; the 0 that follows ends
    the program without a save, so that the file is as it was, the list in
    memory is the one that was loaded, and the lines after the 0 are left
    unread. *)
Theorem main_unknown_choices_then_quit (w : world) (junk rest : list pystr) :
  stdin w = junk ++ CHOICE_0 :: rest ->
  Forall (fun choice => choice ∉ choices) junk ->
  exists pb,
    load_phonebook w = (Ok pb, w)
    /\ main w
       = Some (Ok tt,
               mkWorld rest
                 (stdout w
                    ++ concat (map (fun _ => menu ++ [Prompt ASK_CHOICE; Text MSG_BAD_CHOICE])
                                 junk)
                    ++ menu ++ [Prompt ASK_CHOICE])
                 (disk w) pb).
Proof.
  intros Hstdin Hjunk. destruct (load_phonebook_total w) as [pb Hload].
  exists pb. split; [done|]. unfold main, main_with. rewrite Hload, Hstdin.
  replace (S (length (junk ++ CHOICE_0 :: rest)))
    with (length junk + S (S (length rest)))%nat by (rewrite length_app; simpl; lia).
  rewrite (main_loop_unknown junk (CHOICE_0 :: rest) _ _ Hjunk) by done.
  erewrite main_loop_exit; [|erewrite run_main_turn; [|reflexivity]; reflexivity].
  cbn [stdin stdout disk phonebook set_phonebook]. by rewrite <- !app_assoc.
Qed.

Lemma run_main_choice_1 :
  main_choice CHOICE_1
  = (page_num ← input_int ASK_PAGE;
     entries_per_page ← input_int ASK_PAGE_SIZE;
     display_page page_num entries_per_page;;
     mret true).
Proof. reflexivity. Qed.


Lemma run_main_choice_3 :
  main_choice CHOICE_3 = (entry_idx ← input_int ASK_INDEX; edit_entry entry_idx;; mret true).
Proof. reflexivity. Qed.

Lemma run_main_choice_4 : main_choice CHOICE_4 = (search_entries;; mret true).
Proof. reflexivity. Qed.

Lemma run_input_int_bad (w : world) (prompt line msg : pystr) (rest : list pystr) :
  stdin w = line :: rest -> py_int line = inr msg ->
  input_int prompt w
  = (Raise (ValueError msg), set_stdin (set_stdout w (stdout w ++ [Prompt prompt])) rest).
Proof.
  intros Hstdin Hline. unfold input_int. rewrite run_bind. unfold input.
  by rewrite Hstdin, Hline.
Qed.

Lemma run_input_int (w : world) (prompt line : pystr) (n : Z) (rest : list pystr) :
  stdin w = line :: rest -> py_int line = inl n ->
  input_int prompt w
  = (Ok n, set_stdin (set_stdout w (stdout w ++ [Prompt prompt])) rest).
Proof.
  intros Hstdin Hline. unfold input_int. rewrite run_bind. unfold input.
  by rewrite Hstdin, Hline.
Qed.

(** X28. A line that [int] rejects where a number is asked for ends the
    program: the ValueError is raised in [main], outside the handler of
    [edit_entry], and nothing catches it.  This holds for the index of the
    choice 3 and for the page number of the choice 1; the file is as it
    was. *)
Theorem main_not_a_number (w : world) (line msg : pystr) (rest : list pystr) :
  py_int line = inr msg ->
  exists pb,
    load_phonebook w = (Ok pb, w)
    /\ (stdin w = CHOICE_3 :: line :: rest ->
        main w
        = Some (Raise (ValueError msg),
                mkWorld rest (stdout w ++ menu ++ [Prompt ASK_CHOICE; Prompt ASK_INDEX])
                  (disk w) pb))
    /\ (stdin w = CHOICE_1 :: line :: rest ->
        main w
        = Some (Raise (ValueError msg),
                mkWorld rest (stdout w ++ menu ++ [Prompt ASK_CHOICE; Prompt ASK_PAGE])
                  (disk w) pb)).
Proof.
  intros Hline. destruct (load_phonebook_total w) as [pb Hload].
  exists pb. split; [done|].
  split; intros Hstdin; unfold main, main_with; rewrite Hload;
    (erewrite main_loop_raise; [reflexivity|]);
    (erewrite run_main_turn; [|exact Hstdin]).
  - rewrite run_main_choice_3, run_bind.
    erewrite run_input_int_bad; [|reflexivity|exact Hline].
    unfold set_stdin, set_stdout. cbn [stdin stdout disk phonebook set_phonebook].
    by rewrite <- !app_assoc.
  - rewrite run_main_choice_1, run_bind.
    erewrite run_input_int_bad; [|reflexivity|exact Hline].
    unfold set_stdin, set_stdout. cbn [stdin stdout disk phonebook set_phonebook].
    by rewrite <- !app_assoc.
Qed.



End Phonebook.

(** ** 30. The theorems at work on the sample data *)


Lemma display_page_clipped_witness :
  (1 <= 3)%Z /\ (0 <= 2)%Z
  /\ display_page 3 2 sample_world
     = (Ok tt, set_stdout sample_world [Repr (contact (u "Popov"))])
  /\ display_page 1 2 sample_world
     = (Ok tt, set_stdout sample_world
                 [Repr (contact (u "Petrov")); Repr (contact (u "Sidorov"))])
  /\ display_page 10 2 sample_world = (Ok tt, set_stdout sample_world []).
Proof.
  split; [lia|]. split; [lia|]. split; [|split].
  - exact (proj1 (display_page_clipped sample_world 3 2 ltac:(lia) ltac:(lia))).
  - exact (proj1 (display_page_clipped sample_world 1 2 ltac:(lia) ltac:(lia))).
  - exact (proj1 (display_page_clipped sample_world 10 2 ltac:(lia) ltac:(lia))).
Defined.

(** C2 as stated fails below page 1 and below size 0: of five records,
    page -1 of size 2 prints the second and the third, and page 1 of size -1
    prints the first four. *)
Lemma display_page_unclamped :
  (-1 < 1)%Z
  /\ display_page (-1) 2 sample_world
     = (Ok tt, set_stdout sample_world
                 [Repr (contact (u "Sidorov")); Repr (contact (u "Smirnov"))])
  /\ page_entries (-1) 2 sample_book <> []
  /\ (-1 <= 0)%Z
  /\ display_page 1 (-1) sample_world
     = (Ok tt, set_stdout sample_world
                 [Repr (contact (u "Petrov")); Repr (contact (u "Sidorov"));
                  Repr (contact (u "Smirnov")); Repr (contact (u "Kuznetsov"))])
  /\ page_entries 1 (-1) sample_book <> [].
Proof.
  split; [lia|]. split; [reflexivity|]. split; [discriminate|].
  split; [lia|]. split; [reflexivity|discriminate].
Qed.

Lemma edit_entry_out_of_range_witness :
  ~ (1 <= 6 <= Z.of_nat (length (phonebook sample_world)))%Z
  /\ edit_entry no_unicode_digit 6 sample_world
     = (Ok tt, set_stdout sample_world [Text MSG_BAD_INDEX]).
Proof.
  assert (H : ~ (1 <= 6 <= Z.of_nat (length (phonebook sample_world)))%Z)
    by (simpl; lia).
  split; [exact H|].
  exact (edit_entry_out_of_range no_unicode_digit sample_world 6 H).
Defined.



Lemma validate_string_input_trims_witness :
  (exists c, c ∈ u "  Ivanov " /\ isspace c = false)
  /\ validate_string_input (u "  Ivanov ") K_LAST = Ok (u "Ivanov")
  /\ strip (u "   ") = []
  /\ validate_string_input (u "   ") K_LAST = Raise (ValueError (K_LAST ++ MSG_EMPTY)).
Proof.
  assert (H : exists c, c ∈ u "  Ivanov " /\ isspace c = false).
  { exists 73. split; [|reflexivity]. vm_compute. repeat constructor. }
  split; [exact H|]. split; [|split; [reflexivity|]].
  - exact (proj1 (proj1 (validate_string_input_trims (u "  Ivanov ") K_LAST) H)).
  - exact (proj2 (validate_string_input_trims (u "   ") K_LAST) eq_refl).
Defined.

Lemma add_entry_appends_witness :
  Forall (fun e => known e = true) (phonebook sample_world)
  /\ sample_contact <> []
  /\ exists w1 w2 loaded,
       input_contact_data no_unicode_digit sample_world = (Ok sample_contact, w1)
       /\ add_entry no_unicode_digit sample_world = (Ok tt, w2)
       /\ length (phonebook w2) = 6%nat
       /\ phonebook w2 !! 5%nat = Some (sample_contact ++ [Item K_ID (VInt 6)])
       /\ load_phonebook w2 = (Ok loaded, w2)
       /\ length loaded = 6%nat.
Proof.
  assert (Hknown : Forall (fun e => known e = true) (phonebook sample_world))
    by (repeat constructor).
  assert (Hcd : sample_contact <> []) by discriminate.
  split; [exact Hknown|]. split; [exact Hcd|].
  set (r := input_contact_data no_unicode_digit sample_world).
  assert (Hinput : r = (Ok sample_contact, r.2)) by (vm_compute; reflexivity).
  destruct (add_entry_appends no_unicode_digit sample_world r.2 sample_contact
              Hknown Hinput Hcd)
    as (w2 & loaded & Hadd & Hlen & Hlast & _ & Hload & Hloaded & _).
  exists r.2, w2, loaded. repeat split; assumption.
Defined.

Lemma load_phonebook_missing_file_witness :
  disk sample_world = None /\ load_phonebook sample_world = (Ok [], sample_world).
Proof.
  split; [reflexivity|].
  exact (load_phonebook_missing_file sample_world eq_refl).
Defined.

Lemma load_strings_save_integers_witness :
  Forall (fun e => known e = true) (phonebook sample_world)
  /\ exists w' loaded,
       save_phonebook sample_world = (Ok tt, w')
       /\ load_phonebook w' = (Ok loaded, w')
       /\ (exists text, disk w' = Some text /\ rectangular text)
       /\ Forall (fun e => forallb is_str e = true) loaded.
Proof.
  assert (Hknown : Forall (fun e => known e = true) (phonebook sample_world))
    by (repeat constructor).
  split; [exact Hknown|].
  destruct (proj2 (load_strings_save_integers sample_world) Hknown)
    as (w' & loaded & Hsave & Hload & (text & Hdisk & Hrect) & _).
  destruct (proj1 (load_strings_save_integers w') text Hdisk Hrect)
    as (loaded' & Hload' & Hstr).
  exists w', loaded'. repeat split; try assumption.
  exists text. split; assumption.
Defined.

(** The search of the specification's example: among records read from the
    file, the text ivanov finds the record of the organization Ivanov LLC
    and no other. *)
Lemma search_entries_sample :
  let found := read_back (sample_contact ++ [Item K_ID (VInt 3)]) in
  let w := mkWorld [u "Ivanov"] [] None (loaded_book ++ [found]) in
  search_entries no_unicode_lower w
  = (Ok tt, mkWorld [] [Prompt ASK_SEARCH; Text MSG_RESULTS; Repr found] None
              (loaded_book ++ [found])).
Proof. reflexivity. Qed.

(** C10 as stated fails on a short row: the cell that is missing comes back
    as [None], which is no string. *)
Lemma load_phonebook_short_row :
  let w := mkWorld [] [] (Some ragged_file) [] in
  load_phonebook w = (Ok [[Item K_ID (VStr [49]); Item (u "Name") VNone]], w)
  /\ forallb is_str [Item K_ID (VStr [49]); Item (u "Name") VNone] = false.
Proof. split; reflexivity. Qed.

(** ** 31. The further theorems at work on the sample data *)

Lemma validate_string_input_fixpoint_witness :
  validate_string_input (u "  Ivanov ") K_LAST = Ok (u "Ivanov")
  /\ validate_string_input (u "Ivanov") K_FIRST = Ok (u "Ivanov").
Proof.
  assert (H : validate_string_input (u "  Ivanov ") K_LAST = Ok (u "Ivanov"))
    by reflexivity.
  split; [exact H|].
  exact (proj1 (validate_string_input_fixpoint _ _ K_LAST K_FIRST H)).
Defined.

Lemma validate_phone_number_exact_witness :
  validate_phone_number no_unicode_digit (u "+7 (123) 456-78-90") = true
  /\ (full_phone no_unicode_digit (u "+7 (123) 456-78-90")
      \/ exists s', u "+7 (123) 456-78-90" = s' ++ [LF] /\ full_phone no_unicode_digit s').
Proof.
  assert (H : validate_phone_number no_unicode_digit (u "+7 (123) 456-78-90") = true)
    by reflexivity.
  split; [exact H|].
  exact (proj1 (validate_phone_number_exact no_unicode_digit _) H).
Defined.

Lemma ask_phone_retries_witness :
  Forall (fun line => validate_phone_number no_unicode_digit line = false) [u "123"]
  /\ validate_phone_number no_unicode_digit (u "+7 (123) 456-78-90") = true
  /\ ask_phone no_unicode_digit ASK_WORK
       (typed [u "123"; u "+7 (123) 456-78-90"; u "next"] [])
     = (Ok (u "+7 (123) 456-78-90"),
        mkWorld [u "next"] [Prompt ASK_WORK; Text MSG_BAD_PHONE; Prompt ASK_WORK] None []).
Proof.
  assert (H : Forall (fun line => validate_phone_number no_unicode_digit line = false)
                [u "123"]) by (repeat constructor).
  split; [exact H|]. split; [reflexivity|].
  exact (proj1 (ask_phone_retries no_unicode_digit
                  (typed [u "123"; u "+7 (123) 456-78-90"; u "next"] [])
                  ASK_WORK [u "123"] H)
           (u "+7 (123) 456-78-90") [u "next"] eq_refl eq_refl).
Defined.

Lemma input_contact_data_blank_field_witness :
  Forall (fun line => strip line <> []) [u "Ivanov"]
  /\ strip (u "  ") = []
  /\ input_contact_data no_unicode_digit (typed [u "Ivanov"; u "  "; u "next"] [])
     = (Ok [],
        mkWorld [u "next"]
          [Prompt ASK_LAST; Prompt ASK_FIRST; Report (ValueError (K_FIRST ++ MSG_EMPTY))]
          None []).
Proof.
  assert (Hpre : Forall (fun line => strip line <> []) [u "Ivanov"]).
  { constructor; [vm_compute; discriminate|constructor]. }
  split; [exact Hpre|]. split; [reflexivity|].
  exact (input_contact_data_blank_field no_unicode_digit
           (typed [u "Ivanov"; u "  "; u "next"] []) [u "Ivanov"] (u "  ") [u "next"]
           (ASK_FIRST, K_FIRST) eq_refl Hpre eq_refl eq_refl).
Defined.

Lemma input_contact_data_valid_or_empty_witness :
  exists w',
    input_contact_data no_unicode_digit sample_world = (Ok sample_contact, w')
    /\ valid_record no_unicode_digit sample_contact = true
    /\ phonebook w' = phonebook sample_world.
Proof.
  set (r := input_contact_data no_unicode_digit sample_world).
  assert (Hinput : r = (Ok sample_contact, r.2)) by (vm_compute; reflexivity).
  destruct (input_contact_data_valid_or_empty no_unicode_digit sample_world r.2
              sample_contact Hinput)
    as [[Hnil | (_ & Hvalid & _)] [Hbook _]]; [discriminate Hnil|].
  exists r.2. repeat split; assumption.
Defined.


Lemma save_phonebook_stops_at_extra_key_witness :
  phonebook extra_world = [contact (u "Petrov")] ++ sample_extra :: [contact (u "Popov")]
  /\ Forall (fun e => known e = true) [contact (u "Petrov")]
  /\ known sample_extra = false
  /\ (save_phonebook extra_world).1 = Raise ExtraFieldsError
  /\ phonebook (save_phonebook extra_world).2 !! 2%nat = Some (contact (u "Popov")).
Proof.
  assert (Hgood : Forall (fun e => known e = true) [contact (u "Petrov")])
    by (repeat constructor).
  split; [reflexivity|]. split; [exact Hgood|]. split; [reflexivity|].
  rewrite (save_phonebook_stops_at_extra_key extra_world [contact (u "Petrov")]
             sample_extra [contact (u "Popov")] eq_refl Hgood eq_refl).
  split; reflexivity.
Defined.


Lemma save_phonebook_idempotent_witness :
  Forall (fun e => known e = true) (phonebook sample_world)
  /\ save_phonebook (save_phonebook sample_world).2
     = (Ok tt, (save_phonebook sample_world).2).
Proof.
  assert (Hknown : Forall (fun e => known e = true) (phonebook sample_world))
    by (repeat constructor).
  split; [exact Hknown|].
  exact (save_phonebook_idempotent sample_world Hknown).
Defined.


Lemma reload_and_save_keeps_file_witness :
  Forall (fun e => known e = true) (phonebook sample_world)
  /\ exists w1 loaded w2,
       save_phonebook sample_world = (Ok tt, w1)
       /\ load_phonebook w1 = (Ok loaded, w1)
       /\ save_phonebook (set_phonebook w1 loaded) = (Ok tt, w2)
       /\ disk w2 = disk w1.
Proof.
  assert (Hknown : Forall (fun e => known e = true) (phonebook sample_world))
    by (repeat constructor).
  split; [exact Hknown|].
  destruct (reload_and_save_keeps_file sample_world Hknown)
    as (w1 & loaded & w2 & Hsave & Hload & Hsave2 & Hdisk & _).
  exists w1, loaded, w2. repeat split; assumption.
Defined.

Lemma load_phonebook_any_header_witness :
  foreign_names <> [] /\ NoDup foreign_names
  /\ Forall (fun row => length row = length foreign_names) foreign_rows
  /\ load_phonebook
       (mkWorld [] [] (Some (concat (map writer_writerow (foreign_names :: foreign_rows))))
          [])
     = (Ok [[Item (u "Name") (VStr (u "Ann")); Item (u "Phone") (VStr (u "1"))];
            [Item (u "Name") (VStr (u "Bob, Jr.")); Item (u "Phone") (VStr (u "2"))]],
        mkWorld [] [] (Some (concat (map writer_writerow (foreign_names :: foreign_rows))))
          []).
Proof.
  assert (Hne : foreign_names <> []) by discriminate.
  assert (Hnd : NoDup foreign_names).
  { apply (bool_decide_unpack _). vm_compute. exact I. }
  assert (Hrows : Forall (fun row => length row = length foreign_names) foreign_rows)
    by (repeat constructor).
  split; [exact Hne|]. split; [exact Hnd|]. split; [exact Hrows|].
  exact (load_phonebook_any_header
           (mkWorld [] []
              (Some (concat (map writer_writerow (foreign_names :: foreign_rows)))) [])
           foreign_names foreign_rows Hne Hnd Hrows eq_refl).
Defined.

Lemma add_entry_rejected_witness :
  exists w1,
    input_contact_data no_unicode_digit (typed [u " "; u "next"] sample_book) = (Ok [], w1)
    /\ add_entry no_unicode_digit (typed [u " "; u "next"] sample_book) = (Ok tt, w1)
    /\ phonebook w1 = sample_book /\ disk w1 = None.
Proof.
  set (r := input_contact_data no_unicode_digit (typed [u " "; u "next"] sample_book)).
  assert (Hinput : r = (Ok [], r.2)) by (vm_compute; reflexivity).
  destruct (add_entry_rejected no_unicode_digit _ r.2 Hinput) as (Hadd & Hbook & Hdisk).
  exists r.2. repeat split; assumption.
Defined.

Lemma add_entry_extra_key_raises_witness :
  phonebook extra_world = [contact (u "Petrov")] ++ sample_extra :: [contact (u "Popov")]
  /\ Forall (fun e => known e = true) [contact (u "Petrov")]
  /\ known sample_extra = false
  /\ sample_contact <> []
  /\ exists w1,
       input_contact_data no_unicode_digit extra_world = (Ok sample_contact, w1)
       /\ (add_entry no_unicode_digit extra_world).1 = Raise ExtraFieldsError.
Proof.
  assert (Hgood : Forall (fun e => known e = true) [contact (u "Petrov")])
    by (repeat constructor).
  assert (Hcd : sample_contact <> []) by discriminate.
  split; [reflexivity|]. split; [exact Hgood|]. split; [reflexivity|]. split; [exact Hcd|].
  set (r := input_contact_data no_unicode_digit extra_world).
  assert (Hinput : r = (Ok sample_contact, r.2)) by (vm_compute; reflexivity).
  exists r.2. split; [exact Hinput|].
  rewrite (add_entry_extra_key_raises no_unicode_digit extra_world r.2 sample_contact
             [contact (u "Petrov")] sample_extra [contact (u "Popov")]
             eq_refl Hgood eq_refl Hinput Hcd).
  reflexivity.
Defined.

Lemma edit_entry_reports_save_error_witness :
  (1 <= 1 <= Z.of_nat (length (phonebook extra_world)))%Z
  /\ phonebook extra_world !! Z.to_nat (1 - 1) = Some (contact (u "Petrov"))
  /\ sample_contact <> []
  /\ Forall (fun e => known e = true) [update (contact (u "Petrov")) sample_contact]
  /\ known sample_extra = false
  /\ exists w1,
       input_contact_data no_unicode_digit (shown extra_world (contact (u "Petrov")))
       = (Ok sample_contact, w1)
       /\ (edit_entry no_unicode_digit 1 extra_world).1 = Ok tt
       /\ stdout (edit_entry no_unicode_digit 1 extra_world).2
          = stdout w1 ++ [Report ExtraFieldsError].
Proof.
  assert (Hrange : (1 <= 1 <= Z.of_nat (length (phonebook extra_world)))%Z)
    by (simpl; lia).
  assert (Hcd : sample_contact <> []) by discriminate.
  assert (Hgood : Forall (fun e => known e = true)
                    [update (contact (u "Petrov")) sample_contact])
    by (repeat constructor).
  split; [exact Hrange|]. split; [reflexivity|]. split; [exact Hcd|].
  split; [exact Hgood|]. split; [reflexivity|].
  set (r := input_contact_data no_unicode_digit (shown extra_world (contact (u "Petrov")))).
  assert (Hinput : r = (Ok sample_contact, r.2)) by (vm_compute; reflexivity).
  exists r.2. split; [exact Hinput|].
  rewrite (edit_entry_reports_save_error no_unicode_digit extra_world r.2 1
             (contact (u "Petrov")) sample_contact
             [update (contact (u "Petrov")) sample_contact] sample_extra
             [contact (u "Popov")]
             Hrange eq_refl Hinput Hcd eq_refl Hgood eq_refl).
  split; reflexivity.
Defined.

Lemma pages_cover_the_list_witness :
  (0 <= 2)%Z /\ (length sample_book <= 3 * Z.to_nat 2)%nat
  /\ page_entries 1 2 sample_book ++ page_entries 2 2 sample_book
       ++ page_entries 3 2 sample_book
     = sample_book.
Proof.
  assert (Hsize : (0 <= 2)%Z) by lia.
  assert (Hlen : (length sample_book <= 3 * Z.to_nat 2)%nat) by (simpl; lia).
  split; [exact Hsize|]. split; [exact Hlen|].
  pose proof (proj2 (pages_cover_the_list sample_book 2 3 Hsize) Hlen) as H.
  cbn [seq map concat] in H. rewrite app_nil_r in H. exact H.
Defined.

Lemma page_entries_below_one_witness :
  (1 <= 1)%nat /\ (1 <= 2)%Z
  /\ page_entries 0 2 sample_book = []
  /\ page_entries (-1) 2 sample_book = [contact (u "Sidorov"); contact (u "Smirnov")].
Proof.
  assert (Hq : (1 <= 1)%nat) by lia.
  assert (Hsize : (1 <= 2)%Z) by lia.
  split; [exact Hq|]. split; [exact Hsize|]. split.
  - exact (proj1 (page_entries_below_one sample_book 2)).
  - exact (proj2 (page_entries_below_one sample_book 2) 1%nat Hq Hsize).
Defined.

Lemma search_entries_filters_witness :
  Forall (fun line => strip (lower no_unicode_lower line) = []) [u " "]
  /\ strip (lower no_unicode_lower (u "PETROV")) <> []
  /\ Forall (fun e => forallb is_str e = true) loaded_book
  /\ exists r,
       loaded_book !! 0%nat = Some r
       /\ search_entries no_unicode_lower (typed [u " "; u "PETROV"; u "next"] loaded_book)
          = (Ok tt,
             mkWorld [u "next"]
               [Prompt ASK_SEARCH; Text MSG_BAD_SEARCH; Prompt ASK_SEARCH;
                Text MSG_RESULTS; Repr r]
               None loaded_book).
Proof.
  assert (Hblanks : Forall (fun line => strip (lower no_unicode_lower line) = []) [u " "])
    by (repeat constructor).
  assert (Hline : strip (lower no_unicode_lower (u "PETROV")) <> [])
    by (vm_compute; discriminate).
  assert (Hstr : Forall (fun e => forallb is_str e = true) loaded_book)
    by (repeat constructor).
  split; [exact Hblanks|]. split; [exact Hline|]. split; [exact Hstr|].
  eexists. split; [reflexivity|].
  exact (search_entries_filters no_unicode_lower
           (typed [u " "; u "PETROV"; u "next"] loaded_book)
           [u " "] (u "PETROV") [u "next"] eq_refl Hblanks Hline Hstr).
Defined.

Lemma search_entries_after_save_witness :
  strip (lower no_unicode_lower (u "petrov")) <> []
  /\ exists w1,
       save_phonebook (typed [u "petrov"] sample_book) = (Ok tt, w1)
       /\ stdin w1 = [u "petrov"]
       /\ phonebook w1 <> []
       /\ (search_entries no_unicode_lower w1
           = (Raise AttributeError,
              set_stdin (set_stdout w1 (stdout w1 ++ [Prompt ASK_SEARCH])) [])
           \/ search_entries no_unicode_lower w1
              = (Ok tt,
                 mkWorld []
                   ((stdout w1 ++ [Prompt ASK_SEARCH])
                      ++ Text MSG_RESULTS :: map Repr (phonebook w1))
                   (disk w1) (phonebook w1))).
Proof.
  assert (Hline : strip (lower no_unicode_lower (u "petrov")) <> [])
    by (vm_compute; discriminate).
  split; [exact Hline|].
  set (r := save_phonebook (typed [u "petrov"] sample_book)).
  assert (Hsave : r = (Ok tt, r.2)) by (vm_compute; reflexivity).
  assert (Hbook : phonebook r.2 <> []) by (vm_compute; discriminate).
  exists r.2. split; [exact Hsave|]. split; [reflexivity|]. split; [exact Hbook|].
  exact (search_entries_after_save no_unicode_lower _ r.2 (u "petrov") []
           Hsave eq_refl Hline Hbook).
Defined.

Lemma search_entries_after_reload_raises_witness :
  Forall (fun e => known e = true) (phonebook (typed [u "petrov"] sample_book))
  /\ phonebook (typed [u "petrov"] sample_book) <> []
  /\ strip (lower no_unicode_lower (u "petrov")) <> []
  /\ exists w1 loaded w2,
       save_phonebook (typed [u "petrov"] sample_book) = (Ok tt, w1)
       /\ load_phonebook w1 = (Ok loaded, w1)
       /\ (search_entries no_unicode_lower (set_phonebook w1 loaded)).1 = Ok tt
       /\ save_phonebook (set_phonebook w1 loaded) = (Ok tt, w2)
       /\ (search_entries no_unicode_lower w2).1 = Raise AttributeError.
Proof.
  assert (Hknown : Forall (fun e => known e = true)
                     (phonebook (typed [u "petrov"] sample_book)))
    by (repeat constructor).
  assert (Hbook : phonebook (typed [u "petrov"] sample_book) <> []) by discriminate.
  assert (Hline : strip (lower no_unicode_lower (u "petrov")) <> [])
    by (vm_compute; discriminate).
  split; [exact Hknown|]. split; [exact Hbook|]. split; [exact Hline|].
  destruct (search_entries_after_reload_raises no_unicode_lower
              (typed [u "petrov"] sample_book) (u "petrov") []
              Hknown Hbook eq_refl Hline)
    as (w1 & loaded & w2 & Hsave & Hload & Hsearch & Hsave2 & Hraise).
  exists w1, loaded, w2. repeat split; try assumption. by rewrite Hraise.
Defined.

Lemma edit_entry_raises_only_eof_witness :
  exists w',
    edit_entry no_unicode_digit 1 (typed [u "Ivanov"] sample_book) = (Raise EOFError, w')
    /\ stdin w' = [].
Proof.
  set (r := edit_entry no_unicode_digit 1 (typed [u "Ivanov"] sample_book)).
  assert (Hrun : r = (Raise EOFError, r.2)) by (vm_compute; reflexivity).
  exists r.2. split; [exact Hrun|].
  exact (proj2 (edit_entry_raises_only_eof no_unicode_digit _ r.2 1 EOFError Hrun)).
Defined.


Lemma main_ends_witness :
  (length (stdin (typed [u "9"; u "0"] [])) < 7)%nat
  /\ main_with no_unicode_lower no_unicode_digit ascii_int 7 (typed [u "9"; u "0"] [])
     = main no_unicode_lower no_unicode_digit ascii_int (typed [u "9"; u "0"] [])
  /\ exists r w',
       main no_unicode_lower no_unicode_digit ascii_int (typed [u "9"; u "0"] [])
       = Some (r, w').
Proof.
  assert (Hfuel : (length (stdin (typed [u "9"; u "0"] [])) < 7)%nat) by (simpl; lia).
  split; [exact Hfuel|].
  destruct (main_ends no_unicode_lower no_unicode_digit ascii_int (typed [u "9"; u "0"] []))
    as [Hends Hfuels].
  split; [exact (Hfuels 7%nat Hfuel)|exact Hends].
Defined.

Lemma main_returns_after_zero_witness :
  main no_unicode_lower no_unicode_digit ascii_int (typed [u "9"; u "0"; u "next"] [])
  = Some (Ok tt,
          mkWorld [u "next"]
            (menu ++ [Prompt ASK_CHOICE; Text MSG_BAD_CHOICE] ++ menu ++ [Prompt ASK_CHOICE])
            None [])
  /\ exists used, [u "9"; u "0"; u "next"] = used ++ CHOICE_0 :: [u "next"].
Proof.
  assert (Hrun : main no_unicode_lower no_unicode_digit ascii_int
                   (typed [u "9"; u "0"; u "next"] [])
                 = Some (Ok tt,
                         mkWorld [u "next"]
                           (menu ++ [Prompt ASK_CHOICE; Text MSG_BAD_CHOICE] ++ menu
                              ++ [Prompt ASK_CHOICE])
                           None []))
    by (vm_compute; reflexivity).
  split; [exact Hrun|].
  exact (main_returns_after_zero no_unicode_lower no_unicode_digit ascii_int _ _ Hrun).
Defined.


Lemma main_unknown_choices_then_quit_witness :
  Forall (fun choice => choice ∉ choices) [u "9"; u "add"]
  /\ main no_unicode_lower no_unicode_digit ascii_int
       (typed ([u "9"; u "add"] ++ CHOICE_0 :: [u "next"]) [])
     = Some (Ok tt,
             mkWorld [u "next"]
               ((menu ++ [Prompt ASK_CHOICE; Text MSG_BAD_CHOICE])
                  ++ (menu ++ [Prompt ASK_CHOICE; Text MSG_BAD_CHOICE])
                  ++ menu ++ [Prompt ASK_CHOICE])
               None []).
Proof.
  assert (Hjunk : Forall (fun choice => choice ∉ choices) [u "9"; u "add"]).
  { apply (bool_decide_unpack _). vm_compute. exact I. }
  split; [exact Hjunk|].
  destruct (main_unknown_choices_then_quit no_unicode_lower no_unicode_digit ascii_int
              (typed ([u "9"; u "add"] ++ CHOICE_0 :: [u "next"]) [])
              [u "9"; u "add"] [u "next"] eq_refl Hjunk)
    as (pb & Hload & Hmain).
  injection Hload as <-. exact Hmain.
Defined.

Lemma main_not_a_number_witness :
  ascii_int (u "abc") = inr (MSG_INT ++ [39] ++ u "abc" ++ [39])
  /\ main no_unicode_lower no_unicode_digit ascii_int (typed [u "3"; u "abc"; u "0"] [])
     = Some (Raise (ValueError (MSG_INT ++ [39] ++ u "abc" ++ [39])),
             mkWorld [u "0"] (menu ++ [Prompt ASK_CHOICE; Prompt ASK_INDEX]) None []).
Proof.
  assert (Hline : ascii_int (u "abc") = inr (MSG_INT ++ [39] ++ u "abc" ++ [39]))
    by reflexivity.
  split; [exact Hline|].
  destruct (main_not_a_number no_unicode_lower no_unicode_digit ascii_int
              (typed [u "3"; u "abc"; u "0"] []) (u "abc") _ [u "0"] Hline)
    as (pb & Hload & Hindex & _).
  injection Hload as <-. exact (Hindex eq_refl).
Defined.

